(** * trytravis: the transient-branch submission workflow and its
      command-line configuration step

    A shallow embedding of [trytravis.py] as it runs on Python 3.  A
    Python string is a [string] whose characters are the code points
    below 256; the dictionaries git keeps (branches, remotes) are [gmap]s,
    exceptions are values of [exn], and every statement that touches the
    outside world is a computation in the state-and-exception monad [M].
    What the outside decides (the clock, hooks, the network, the file
    system's permissions) is read from [Env]. *)

From Stdlib Require Import ZArith Ascii String List Bool Lia.
From Stdlib Require Import DecimalString.
From stdpp Require Import base option gmap strings list fin_maps.

Local Open Scope string_scope.
Local Open Scope Z_scope.

(** ** Python strings *)

Module PyStr.

(** [str(n)] for a Python integer. *)
Definition str_of_Z (n : Z) : string :=
  NilZero.string_of_int (Z.to_int n).

(** [c.isspace()], the characters [str.strip()] removes.  Among the code
    points below 256 these are 9 to 13, 28 to 31, the space, 133 (next
    line) and 160 (no-break space). *)
Definition is_space (c : ascii) : bool :=
  let n := nat_of_ascii c in
  (Nat.eqb n 32 || (Nat.leb 9 n && Nat.leb n 13)
   || (Nat.leb 28 n && Nat.leb n 31) || Nat.eqb n 133 || Nat.eqb n 160)%bool.

Fixpoint lstrip (s : string) : string :=
  match s with
  | EmptyString => EmptyString
  | String c s' => if is_space c then lstrip s' else s
  end.

(** Dropping trailing whitespace: a character is kept when something
    that is not whitespace follows it or it is itself not whitespace. *)
Fixpoint rstrip (s : string) : string :=
  match s with
  | EmptyString => EmptyString
  | String c s' =>
      match rstrip s' with
      | EmptyString => if is_space c then EmptyString else String c EmptyString
      | r => String c r
      end
  end.

(** [s.strip()] *)
Definition strip (s : string) : string := rstrip (lstrip s).

(** [c.lower()]: the capital letters below 256 are 65 to 90 and 192 to
    222 without the multiplication sign 215; each has its small letter 32
    places further. *)
Definition lower_char (c : ascii) : ascii :=
  let n := nat_of_ascii c in
  if ((Nat.leb 65 n && Nat.leb n 90)
      || (Nat.leb 192 n && Nat.leb n 222 && negb (Nat.eqb n 215)))%bool
  then ascii_of_nat (n + 32) else c.

(** [s.lower()] *)
Fixpoint lower (s : string) : string :=
  match s with
  | EmptyString => EmptyString
  | String c s' => String (lower_char c) (lower s')
  end.

(** [s.startswith(p)], returning what follows the prefix. *)
Fixpoint strip_prefix (p s : string) : option string :=
  match p, s with
  | EmptyString, _ => Some s
  | String a p', String b s' =>
      if Ascii.eqb a b then strip_prefix p' s' else None
  | String _ _, EmptyString => None
  end.

(** Membership in a Python list of strings: [x in [a, b, c]]. *)
Definition str_in (x : string) (l : list string) : bool :=
  existsb (String.eqb x) l.

End PyStr.

(** ** Exceptions and results *)

(** The Python exceptions the program can raise or let through. *)
Inductive exn : Type :=
| RuntimeError (msg : string)
| NotImplementedError
| UnboundLocalError (var : string)
| TypeError
| EOFError
| IOError
| OSError
| FileExistsError
| UnicodeEncodeError
| AttributeError
| NoSuchPathError
| GitCommandError (cmd : string)
| InvalidGitRepositoryError
| RecursionError
| SystemExit (code : Z).

(** [isinstance(e, RuntimeError)]: in Python [NotImplementedError] and
    [RecursionError] are subclasses of [RuntimeError]. *)
Definition is_RuntimeError (e : exn) : bool :=
  match e with
  | RuntimeError _ | NotImplementedError | RecursionError => true
  | _ => false
  end.

(** [isinstance(e, (OSError, IOError))]: the two names are one class,
    and [FileExistsError] is a subclass of it. *)
Definition is_IOError (e : exn) : bool :=
  match e with
  | IOError | OSError | FileExistsError => true
  | _ => false
  end.

(** [str(e)] for the exceptions [main] reports. *)
Definition str_of_exn (e : exn) : string :=
  match e with
  | RuntimeError msg => msg
  | _ => EmptyString
  end.

Inductive result (A : Type) : Type :=
| Ok (a : A)
| Raise (e : exn).
Arguments Ok {A} a.
Arguments Raise {A} e.

(** ** Statements: state and exceptions *)

(** A statement over a state [S] yields a value or raises, and leaves a
    state behind either way. *)
Definition ST (S A : Type) : Type := S -> result A * S.

Definition ret {S A} (a : A) : ST S A := fun s => (Ok a, s).
Definition raise {S A} (e : exn) : ST S A := fun s => (Raise e, s).
Definition bind {S A B} (m : ST S A) (k : A -> ST S B) : ST S B :=
  fun s => match m s with
           | (Ok a, s') => k a s'
           | (Raise e, s') => (Raise e, s')
           end.

Notation "x <- m ;; k" := (bind m (fun x => k))
  (at level 100, m at next level, right associativity).
Notation "m ;; k" := (bind m (fun _ => k))
  (at level 100, right associativity).

(** [try: body / except C as e: handler(e)], where [catch] decides
    [isinstance(e, C)]. *)
Definition try_catch {S A} (body : ST S A) (catch : exn -> bool)
    (handler : exn -> ST S A) : ST S A :=
  fun s => match body s with
           | (Ok a, s') => (Ok a, s')
           | (Raise e, s') =>
               if catch e then handler e s' else (Raise e, s')
           end.

(** [try: body / except: handler] with a bare [except]. *)
Definition try_except {S A} (body : ST S A) (handler : ST S A) : ST S A :=
  try_catch body (fun _ => true) (fun _ => handler).

(** [try: body / finally: fin]: [fin] always runs; an exception of [fin]
    replaces the outcome of [body]. *)
Definition try_finally {S A} (body : ST S A) (fin : ST S unit) : ST S A :=
  fun s => match body s with
           | (r, s') =>
               match fin s' with
               | (Ok _, s'') => (r, s'')
               | (Raise e, s'') => (Raise e, s'')
               end
           end.

(** [try: body / except C as e: handler(e) / else: orelse].  Exceptions
    of [orelse] are not caught. *)
Definition try_except_else {S A} (body : ST S unit) (catch : exn -> bool)
    (handler : exn -> ST S A) (orelse : ST S A) : ST S A :=
  fun s => match body s with
           | (Ok _, s') => orelse s'
           | (Raise e, s') =>
               if catch e then handler e s' else (Raise e, s')
           end.

(** ** The git repository, as GitPython drives it *)

Module Git.

(** Where [HEAD] points: at a branch (possibly one without a commit yet)
    or directly at a commit. *)
Inductive Head : Type :=
| OnBranch (b : string)
| Detached (c : nat).

Record Repo : Type := mkRepo {
  HEAD : Head;
  heads : gmap string nat;          (* refs/heads: branch name to tip commit *)
  index_dirty : bool;               (* staged changes against the HEAD commit *)
  worktree_dirty : bool;            (* unstaged or untracked changes *)
  remotes : gmap string string;     (* remote name to URL *)
  next_commit : nat;                (* the next commit identifier *)
  pushed : list (string * string)   (* pushes performed: (URL, branch) *)
}.

Definition set_HEAD (h : Head) (r : Repo) : Repo :=
  mkRepo h (heads r) (index_dirty r) (worktree_dirty r) (remotes r)
         (next_commit r) (pushed r).
Definition set_heads (hs : gmap string nat) (r : Repo) : Repo :=
  mkRepo (HEAD r) hs (index_dirty r) (worktree_dirty r) (remotes r)
         (next_commit r) (pushed r).
Definition set_dirty (i w : bool) (r : Repo) : Repo :=
  mkRepo (HEAD r) (heads r) i w (remotes r) (next_commit r) (pushed r).
Definition set_remotes (rs : gmap string string) (r : Repo) : Repo :=
  mkRepo (HEAD r) (heads r) (index_dirty r) (worktree_dirty r) rs
         (next_commit r) (pushed r).
Definition set_next_commit (n : nat) (r : Repo) : Repo :=
  mkRepo (HEAD r) (heads r) (index_dirty r) (worktree_dirty r) (remotes r)
         n (pushed r).
Definition set_pushed (p : list (string * string)) (r : Repo) : Repo :=
  mkRepo (HEAD r) (heads r) (index_dirty r) (worktree_dirty r) (remotes r)
         (next_commit r) p.

(** The commit [HEAD] resolves to, if any. *)
Definition head_commit (r : Repo) : option nat :=
  match HEAD r with
  | OnBranch b => heads r !! b
  | Detached c => Some c
  end.

(** [repo.active_branch.name]: raises [TypeError] on a detached HEAD. *)
Definition active_branch : ST Repo string := fun r =>
  match HEAD r with
  | OnBranch b => (Ok b, r)
  | Detached _ => (Raise TypeError, r)
  end.

(** [git checkout HEAD -b new]: needs [HEAD] to name a commit and [new]
    to be unused; the work tree and index are carried over. *)
Definition checkout_b (new : string) : ST Repo unit := fun r =>
  match head_commit r, heads r !! new with
  | Some c, None =>
      (Ok tt, set_HEAD (OnBranch new) (set_heads (<[new := c]> (heads r)) r))
  | _, _ => (Raise (GitCommandError "checkout"), r)
  end.

(** [git add --all]: stages every change of the work tree.  [ok] is the
    verdict of the outside (unreadable files, a locked index). *)
Definition add_all (ok : bool) : ST Repo unit := fun r =>
  if ok
  then (Ok tt, set_dirty (index_dirty r || worktree_dirty r) false r)
  else (Raise (GitCommandError "add"), r).

(** [git commit -m msg]: refuses when nothing is staged; [ok] is the
    verdict of the outside (hooks, committer identity), and [touched]
    tells whether the hooks that ran left changes in the work tree. *)
Definition commit (ok touched : bool) : ST Repo unit := fun r =>
  if ok && index_dirty r
  then
    let c := next_commit r in
    let r1 := set_next_commit (S c)
                (set_dirty false (worktree_dirty r || touched) r) in
    (Ok tt,
     match HEAD r with
     | OnBranch b => set_heads (<[b := c]> (heads r)) r1
     | Detached _ => set_HEAD (Detached c) r1
     end)
  else (Raise (GitCommandError "commit"), r).

(** [url.replace('\\\\', '\\')]: each pair of backslashes, taken from the
    left, becomes one. *)
Fixpoint collapse_backslashes (s : string) : string :=
  match s with
  | EmptyString => EmptyString
  | String c s' =>
      match s' with
      | String d s'' =>
          if Ascii.eqb c "092" && Ascii.eqb d "092"
          then String "092" (collapse_backslashes s'')
          else String c (collapse_backslashes s')
      | EmptyString => String c EmptyString
      end
  end.

(** [url.replace('\\', '/')] *)
Fixpoint backslashes_to_slashes (s : string) : string :=
  match s with
  | EmptyString => EmptyString
  | String c s' =>
      String (if Ascii.eqb c "092" then "/"%char else c)
             (backslashes_to_slashes s')
  end.

(** Whether [os.path.expandvars] and [os.path.expanduser] can have
    anything to do: a [$] or a [%] in the text, or a [~] in front. *)
Fixpoint has_variable (s : string) : bool :=
  match s with
  | EmptyString => false
  | String c s' => Ascii.eqb c "$" || Ascii.eqb c "%" || has_variable s'
  end.

Definition needs_expansion (s : string) : bool :=
  has_variable s
  || match s with String c _ => Ascii.eqb c "~" | EmptyString => false end.

(** [Git.polish_url(url)]: variables and a leading [~] are expanded, by
    [expand] where there is any, then backslashes become slashes. *)
Definition polish_url (expand : string -> string) (url : string) : string :=
  let url := if needs_expansion url then expand url else url in
  backslashes_to_slashes (collapse_backslashes url).

(** [repo.create_remote(name, url)], that is [git remote add] of the
    polished URL: refuses a name already in use.  The value is the handle
    of the new remote. *)
Definition create_remote (expand : string -> string) (name url : string)
  : ST Repo string := fun r =>
  match remotes r !! name with
  | None =>
      (Ok name,
       set_remotes (<[name := polish_url expand url]> (remotes r)) r)
  | Some _ => (Raise (GitCommandError "remote add"), r)
  end.

(** [repo.delete_remote(name)], that is [git remote rm]: refuses a name
    that is not a remote. *)
Definition delete_remote (name : string) : ST Repo unit := fun r =>
  match remotes r !! name with
  | Some _ => (Ok tt, set_remotes (delete name (remotes r)) r)
  | None => (Raise (GitCommandError "remote rm"), r)
  end.

(** What becomes of a push: the server takes the branch; the branch is
    turned down or nothing is sent (git has no upstream to push to, which
    depends on the other remotes and the configuration of the
    repository), which [remote.push()] reports in its value and not by
    raising; or the call raises. *)
Inductive push_outcome : Type :=
| PushAccepted
| PushRejected
| PushFailed.

(** [remote.push()]: sends the current branch to the remote's URL. *)
Definition push (outcome : push_outcome) (remote : string)
  : ST Repo unit := fun r =>
  match remotes r !! remote, HEAD r with
  | Some url, OnBranch b =>
      match outcome with
      | PushAccepted => (Ok tt, set_pushed (pushed r ++ [(url, b)]) r)
      | PushRejected => (Ok tt, r)
      | PushFailed => (Raise (GitCommandError "push"), r)
      end
  | _, _ => (Raise (GitCommandError "push"), r)
  end.

(** [git checkout branch]: the branch must exist.  Local changes are
    carried over; git refuses when they are in files that differ between
    the commit checked out and the target, which [conflict] tells and
    which cannot be when the two are one commit. *)
Definition checkout (conflict : bool) (branch : string)
  : ST Repo unit := fun r =>
  match heads r !! branch with
  | None => (Raise (GitCommandError "checkout"), r)
  | Some c =>
      if (index_dirty r || worktree_dirty r)
         && negb (bool_decide (head_commit r = Some c))
         && conflict
      then (Raise (GitCommandError "checkout"), r)
      else (Ok tt, set_HEAD (OnBranch branch) r)
  end.

End Git.

(** ** The world the program runs in *)

(** What is found at the path of the configuration directory. *)
Inductive entry : Type :=
| Missing
| NotADirectory
| Directory.

(** The configuration store: the directory [config_dir] and the file
    [slug] in it, with the characters it holds.  [slug_file = None] when
    [open(..., 'r')] raises. *)
Record FS : Type := mkFS {
  config_dir_entry : entry;
  slug_file : option string
}.

(** What becomes of [f.write(s)] on the file just opened. *)
Inductive write_outcome : Type :=
| Written
| CannotEncode          (* UnicodeEncodeError *)
| DeviceError.          (* OSError *)

(** What the program changes: files, the git repositories by path, the
    lines still to be typed by the user, and what was printed. *)
Record World : Type := mkWorld {
  fs : FS;
  repos : gmap string Git.Repo;
  stdin : list string;
  stdout : list string
}.

(** What the program only reads: the clock, the working directory, the
    platform, and the verdicts of the outside on the commands that depend
    on it. *)
Record Env : Type := mkEnv {
  time_ms : Z;                  (* int(time.time() * 1000) *)
  cwd : string;                 (* os.getcwd() *)
  exists_on_disk : string -> bool;   (* os.path.exists *)
  (* git *)
  add_ok : bool;
  commit_ok : bool;
  commit_touches_tree : bool;   (* the hooks of a commit leave changes *)
  push_result : Git.push_outcome;
  checkout_conflict : bool;     (* local changes are in the way *)
  expand : string -> string;    (* os.path.expandvars, then expanduser *)
  (* the configuration store *)
  makedirs_ok : bool;           (* the directory may be created *)
  open_for_writing_ok : bool;   (* the file may be opened with 'w+' *)
  write_result : string -> write_outcome;
  crlf : bool;                  (* os.linesep is CR LF *)
  (* platform *)
  platform_system : string;     (* platform.system() *)
  platform_dist : option (string * string);
                                (* platform.dist()[:2], where it exists *)
  platform_version : string;    (* platform.version() *)
  python_version : string       (* platform.python_version() *)
}.

Definition set_fs (f : FS) (w : World) : World :=
  mkWorld f (repos w) (stdin w) (stdout w).
Definition set_repos (rs : gmap string Git.Repo) (w : World) : World :=
  mkWorld (fs w) rs (stdin w) (stdout w).
Definition set_stdin (i : list string) (w : World) : World :=
  mkWorld (fs w) (repos w) i (stdout w).
Definition set_stdout (o : list string) (w : World) : World :=
  mkWorld (fs w) (repos w) (stdin w) o.

(** ** Statements on the world *)

(** Statements of the program act on the world. *)
Abbreviation M := (ST World).

(** [print(s)] *)
Definition print (s : string) : M unit :=
  fun w => (Ok tt, set_stdout (stdout w ++ [s]) w).

(** [user_input(prompt)]: shows the prompt and reads one line. *)
Definition user_input (prompt : string) : M string :=
  fun w =>
    let w1 := set_stdout (stdout w ++ [prompt]) w in
    match stdin w1 with
    | [] => (Raise EOFError, w1)
    | line :: rest => (Ok line, set_stdin rest w1)
    end.

(** [sys.exit(code)] *)
Definition sys_exit {A} (code : Z) : M A := raise (SystemExit code).

(** [colorama.init()] has no effect on the modelled state. *)
Definition colorama_init : M unit := ret tt.

(** Whether something is at [path]: the working directory is, and for
    any other path the outside tells. *)
Definition path_exists (env : Env) (path : string) : bool :=
  String.eqb path (cwd env) || exists_on_disk env path.

(** [repo = git.Repo(path)] followed by statements on [repo]: they act
    on the repository found at [path].  Without one, [git.Repo] raises
    [NoSuchPathError] when nothing is at the path and
    [InvalidGitRepositoryError] otherwise. *)
Definition with_Repo {A} (env : Env) (path : string) (m : ST Git.Repo A)
  : M A :=
  fun w => match repos w !! path with
           | Some r =>
               let (res, r') := m r in
               (res, set_repos (<[path := r']> (repos w)) w)
           | None =>
               if path_exists env path
               then (Raise InvalidGitRepositoryError, w)
               else (Raise NoSuchPathError, w)
           end.

(** ** The URL pattern *)

Module Re.

(** [[^/]+] is greedy: it takes every character up to the first [/]. *)
Fixpoint span_not_slash (s : string) : string * string :=
  match s with
  | EmptyString => (EmptyString, EmptyString)
  | String c s' =>
      if Ascii.eqb c "/" then (EmptyString, s)
      else let (a, b) := span_not_slash s' in (String c a, b)
  end.

(** [(?:www\.)?]: taken when the text starts with [www.]; the branch
    without it cannot match there, since [github] does not start with
    [w]. *)
Definition skip_www (s : string) : string :=
  match PyStr.strip_prefix "www." s with
  | Some s' => s'
  | None => s
  end.

(** [re.match(r'^https://(?:www\.)?github.com/([^/]+)/([^/]+)$', url)]
    and then [match.groups()].  The [.] of [github.com] is not escaped
    in the pattern: it stands for any character but a newline.  The
    second group takes the rest of the text, which [$] then ends. *)
Definition match_github_url (url : string) : option (string * string) :=
  match PyStr.strip_prefix "https://" url with
  | None => None
  | Some s1 =>
      match PyStr.strip_prefix "github" (skip_www s1) with
      | Some (String dot s2) =>
          if Ascii.eqb dot "010" then None
          else
            match PyStr.strip_prefix "com/" s2 with
            | None => None
            | Some s3 =>
                match span_not_slash s3 with
                | (String a author, String _ s4) =>
                    match span_not_slash s4 with
                    | (String n name, EmptyString) =>
                        Some (String a author, String n name)
                    | _ => None
                    end
                | _ => None
                end
            end
      | _ => None
      end
  end.

End Re.

(** ** The pattern as a regular expression *)

Module Regex.

(** The constructs the pattern of [main] is written with. *)
Inductive regex : Type :=
| Lit (s : string)        (* the text itself *)
| Dot                     (* [.]: any character but a newline *)
| NotSlash                (* [[^/]] *)
| Cat (r1 r2 : regex)
| Opt (r : regex)         (* [r?] *)
| Plus (r : regex).       (* [r+] *)

(** The texts a pattern matches from their first to their last
    character. *)
Inductive matches : regex -> string -> Prop :=
| M_Lit s : matches (Lit s) s
| M_Dot c : c <> "010"%char -> matches Dot (String c EmptyString)
| M_NotSlash c : c <> "/"%char -> matches NotSlash (String c EmptyString)
| M_Cat r1 r2 s1 s2 :
    matches r1 s1 -> matches r2 s2 -> matches (Cat r1 r2) (s1 +:+ s2)
| M_OptNone r : matches (Opt r) EmptyString
| M_OptSome r s : matches r s -> matches (Opt r) s
| M_PlusOne r s : matches r s -> matches (Plus r) s
| M_PlusMore r s1 s2 :
    matches r s1 -> matches (Plus r) s2 -> matches (Plus r) (s1 +:+ s2).

(** [https://(?:www\.)?github.com/([^/]+)/([^/]+)] between [^] and [$]. *)
Definition github_url_re : regex :=
  Cat (Lit "https://")
   (Cat (Opt (Lit "www."))
    (Cat (Lit "github")
     (Cat Dot
      (Cat (Lit "com/")
       (Cat (Plus NotSlash)
        (Cat (Lit "/") (Plus NotSlash))))))).

Fixpoint no_slash (s : string) : bool :=
  match s with
  | EmptyString => true
  | String c s' => negb (Ascii.eqb c "/") && no_slash s'
  end.

End Regex.


(** ** The program *)

(** What [open(os.path.join(config_dir, 'slug'), 'r')] finds: nothing
    when the directory or the file is missing or cannot be read. *)
Definition slug_on_disk (f : FS) : option string :=
  match config_dir_entry f with
  | Directory => slug_file f
  | _ => None
  end.

(** Reading in text mode: a carriage return, with the line feed that
    follows it if there is one, is read as a line feed. *)
Fixpoint universal_newlines (s : string) : string :=
  match s with
  | EmptyString => EmptyString
  | String c s' =>
      if Ascii.eqb c "013"
      then match s' with
           | String d s'' =>
               if Ascii.eqb d "010"
               then String "010" (universal_newlines s'')
               else String "010" (universal_newlines s')
           | EmptyString => String "010" EmptyString
           end
      else String c (universal_newlines s')
  end.

(** Writing in text mode: a line feed is written as [os.linesep]. *)
Fixpoint to_linesep (crlf : bool) (s : string) : string :=
  match s with
  | EmptyString => EmptyString
  | String c s' =>
      if crlf && Ascii.eqb c "010"
      then String "013" (String "010" (to_linesep crlf s'))
      else String c (to_linesep crlf s')
  end.

(** [with open(os.path.join(config_dir, 'slug'), 'r') as f: f.read()] *)
Definition read_slug_file : M string :=
  fun w =>
    match slug_on_disk (fs w) with
    | Some s => (Ok (universal_newlines s), w)
    | None => (Raise IOError, w)
    end.

(** [os.path.isdir(config_dir)] *)
Definition isdir_config_dir : M bool :=
  fun w => (Ok (match config_dir_entry (fs w) with
                | Directory => true
                | _ => false
                end), w).

(** [os.makedirs(config_dir)]: [FileExistsError] when something is at the
    path already, [OSError] when the directory may not be created. *)
Definition makedirs_config_dir (env : Env) : M unit :=
  fun w =>
    match config_dir_entry (fs w) with
    | Missing =>
        if makedirs_ok env
        then (Ok tt, set_fs (mkFS Directory (slug_file (fs w))) w)
        else (Raise OSError, w)
    | _ => (Raise FileExistsError, w)
    end.

(** [with open(..., 'w+') as f: f.truncate(); f.write(s)]: opening
    empties the file; the write can then still fail, and leaves it
    empty. *)
Definition write_slug_file (env : Env) (s : string) : M unit :=
  fun w =>
    if open_for_writing_ok env
    then
      let emptied := set_fs (mkFS (config_dir_entry (fs w))
                                  (Some EmptyString)) w in
      match write_result env s with
      | Written =>
          (Ok tt, set_fs (mkFS (config_dir_entry (fs w))
                               (Some (to_linesep (crlf env) s))) w)
      | CannotEncode => (Raise UnicodeEncodeError, emptied)
      | DeviceError => (Raise OSError, emptied)
      end
    else (Raise OSError, w).

(** The object [TryTravis(path)]; [build] and [build_url] are never
    assigned after [__init__]. *)
Record TryTravis : Type := mkTryTravis {
  path : string;
  slug : option string
}.

Definition TryTravis_init (p : string) : TryTravis := mkTryTravis p None.

Definition _load_trytravis_github_slug (self : TryTravis) : M TryTravis :=
  try_catch
    (content <- read_slug_file ;;
     ret (mkTryTravis (path self) (Some content)))
    is_IOError
    (fun _ =>
       raise (RuntimeError
         "Could not find your repository. Have you ran `trytravis --repo`?")).

(** ['https://github.com/' + self.slug]: [TypeError] while [self.slug]
    is still [None]. *)
Definition remote_url {S} (self : TryTravis) : ST S string :=
  match slug self with
  | Some s => ret ("https://github.com/" +:+ s)
  | None => raise TypeError
  end.

(** The name [remote] is bound by the assignment inside the inner [try]
    only; [remote.push()] on the unbound name raises
    [UnboundLocalError].  The local is carried as an [option]. *)
Definition push_local (env : Env) (remote : option string)
  : ST Git.Repo unit :=
  match remote with
  | Some r => Git.push (push_result env) r
  | None => raise (UnboundLocalError "remote")
  end.

(** [new_branch = 'trytravis-' + str(int(time.time() * 1000))] *)
Definition new_branch (env : Env) : string :=
  "trytravis-" +:+ PyStr.str_of_Z (time_ms env).

(** The inner [try]: [remote] is assigned when [create_remote] returns,
    and any exception is passed over. *)
Definition add_remote (env : Env) (self : TryTravis)
  : ST Git.Repo (option string) :=
  try_except
    (url <- remote_url self ;;
     r <- Git.create_remote (expand env) "trytravis" url ;;
     ret (Some r))
    (ret None).

(** The body of the outer [try]. *)
Definition submit_try (env : Env) (self : TryTravis) : ST Git.Repo unit :=
  Git.checkout_b (new_branch env) ;;
  Git.add_all (add_ok env) ;;
  Git.commit (commit_ok env) (commit_touches_tree env) ;;
  remote <- add_remote env self ;;
  push_local env remote.

(** The [finally] block. *)
Definition submit_finally (env : Env) (old_branch : string)
  : ST Git.Repo unit :=
  try_except (Git.delete_remote "trytravis") (ret tt) ;;
  Git.checkout (checkout_conflict env) old_branch.

(** The statements of [_submit_project_to_github] after
    [repo = git.Repo(self.path)]. *)
Definition submit_on_repo (env : Env) (self : TryTravis)
  : ST Git.Repo unit :=
  old_branch <- Git.active_branch ;;
  try_finally (submit_try env self) (submit_finally env old_branch).

Definition _submit_project_to_github (env : Env) (self : TryTravis)
  : M unit :=
  with_Repo env (path self) (submit_on_repo env self).

Definition _wait_for_travis_build (self : TryTravis) : M unit :=
  raise NotImplementedError.

Definition _watch_travis_build (self : TryTravis) : M unit :=
  colorama_init ;;
  raise NotImplementedError.

Definition start (env : Env) (self : TryTravis) : M unit :=
  self <- _load_trytravis_github_slug self ;;
  _submit_project_to_github env self ;;
  _wait_for_travis_build self ;;
  _watch_travis_build self.

Definition help_text : string :=
"usage: trytravis [command]?

  [empty]               Running with no command submits your git repo to Travis.
  --help, -h            Prints this help string.
  --version, -v         Prints out the version, useful when submitting an issue.
  --repo, -r [repo]?    Tells the program you wish to setup your building repository.

If you're still having troubles feel free to open an issue at our
issue tracker: https://github.com/SethMichaelLarson/trytravis/issues".

Definition __version__ : string := "0.0.0.dev0".

(** [colorama.Fore.RED] and [colorama.Style.RESET_ALL] *)
Definition Fore_RED : string := String "027" "[31m".
Definition Style_RESET_ALL : string := String "027" "[0m".

(** The [--version] branch.  [platform.dist] is no attribute of the
    module on the Python versions that have dropped it. *)
Definition print_version (env : Env) : M unit :=
  name_version <-
    (if String.eqb (platform_system env) "Linux"
     then match platform_dist env with
          | Some d => ret d
          | None => raise AttributeError
          end
     else ret (platform_system env, platform_version env)) ;;
  let '(name, version) := name_version in
  print ("trytravis " +:+ __version__ +:+ " (" +:+ PyStr.lower name +:+ " "
         +:+ version +:+ ", python " +:+ python_version env +:+ ")").

(** The texts of the [--repo] branch. *)
Definition url_prompt : string :=
  "Input the URL of the GitHub repository to use as a `trytravis` repository: ".

Definition invalid_url_message : string :=
  "That URL doesn't look like a valid GitHub URL. We expect somethingof the form: `https://github.com/[USERNAME]/[REPOSITORY]`".

Definition confirm_prompt (author name : string) : string :=
  "Remember that `trytravis` will make commits on your behalf to `https://github.com/"
  +:+ author +:+ "/" +:+ name
  +:+ "`. Are you sure you wish to use this repository? Type `y` or `yes` to accept: ".

Definition aborted_message : string := "Operation aborted by user.".

(** ['/%s/%s' % (author, name)] *)
Definition slug_of (author name : string) : string :=
  "/" +:+ author +:+ "/" +:+ name.

(** The [--repo] branch. *)
Definition setup_repo (env : Env) (argv : list string) : M unit :=
  url <- (if Nat.eqb (length argv) 2
          then ret (nth 1 argv EmptyString)
          else user_input url_prompt) ;;
  let url := PyStr.strip url in
  match Re.match_github_url url with
  | None => raise (RuntimeError invalid_url_message)
  | Some (author, name) =>
      accept <- user_input (confirm_prompt author name) ;;
      if negb (PyStr.str_in (PyStr.lower accept) ["y"; "yes"])
      then raise (RuntimeError aborted_message)
      else
        exists_dir <- isdir_config_dir ;;
        (if negb exists_dir then makedirs_config_dir env else ret tt) ;;
        write_slug_file env (slug_of author name) ;;
        print "Repository saved successfully."
  end.

(** [colorama.Fore.RED + 'ERROR: ' + str(e) + colorama.Style.RESET_ALL] *)
Definition error_line (e : exn) : string :=
  Fore_RED +:+ "ERROR: " +:+ str_of_exn e +:+ Style_RESET_ALL.

(** The body of [main], with the call [main(['--help'])] it makes to
    itself passed as [self_call]. *)
Definition main_body (self_call : list string -> M unit) (env : Env)
    (argv : list string) : M unit :=
  try_except_else
    (colorama_init ;;
     let token_input_argv :=
       Nat.eqb (length argv) 2
       && PyStr.str_in (nth 0 argv EmptyString) ["--token"; "-t"; "-T"] in
     (if Nat.ltb 1 (length argv) && negb token_input_argv
      then self_call ["--help"]
      else ret tt) ;;
     if Nat.eqb (length argv) 1 || token_input_argv
     then
       let arg := nth 0 argv EmptyString in
       if PyStr.str_in arg ["-h"; "--help"; "-H"] then print help_text
       else if PyStr.str_in arg ["-v"; "--version"; "-V"]
       then print_version env
       else if PyStr.str_in arg ["-r"; "--repo"; "-R"]
       then setup_repo env argv
       else ret tt
     else if Nat.eqb (length argv) 0
     then start env (TryTravis_init (cwd env))
     else ret tt)
    is_RuntimeError
    (fun e => print (error_line e) ;; sys_exit 1)
    (sys_exit 0).

(** [main] calls itself; [depth] bounds the nesting of calls as the
    interpreter's recursion limit does. *)
Fixpoint main_depth (depth : nat) (env : Env) (argv : list string)
  : M unit :=
  match depth with
  | O => raise RecursionError
  | S d => main_body (main_depth d env) env argv
  end.

Definition recursion_limit : nat := 1000.

Definition main (env : Env) (argv : list string) : M unit :=
  main_depth recursion_limit env argv.

(** ** Observations on the world *)

(** The active branch of the repository at [p], when it can be read. *)
Definition active_branch_at (p : string) (w : World) : option string :=
  match repos w !! p with
  | Some r =>
      match Git.active_branch r with
      | (Ok b, _) => Some b
      | (Raise _, _) => None
      end
  | None => None
  end.

(** The URL of the remote [name] of the repository at [p], if any. *)
Definition remote_at (p name : string) (w : World) : option string :=
  match repos w !! p with
  | Some r => Git.remotes r !! name
  | None => None
  end.

(** The pushes made so far from the repository at [p]. *)
Definition pushed_at (p : string) (w : World) : list (string * string) :=
  match repos w !! p with
  | Some r => Git.pushed r
  | None => []
  end.

(** The branches of the repository at [p]. *)
Definition branches_at (p : string) (w : World) : gmap string nat :=
  match repos w !! p with
  | Some r => Git.heads r
  | None => ∅
  end.

(** The flags that select the configuration step. *)
Definition repo_flag (arg : string) : bool :=
  PyStr.str_in arg ["-r"; "--repo"; "-R"].

(** The user's answer, lowercased, is [y] or [yes]. *)
Definition accepted (answer : string) : bool :=
  PyStr.str_in (PyStr.lower answer) ["y"; "yes"].

(** Staged or unstaged changes are present. *)
Definition has_changes (r : Git.Repo) : bool :=
  Git.index_dirty r || Git.worktree_dirty r.

(** [git checkout b] will be accepted: [b] exists, and there are no local
    changes, or they sit on the commit [b] points at, or they are not in
    the way. *)
Definition restorable (env : Env) (b : string) (r : Git.Repo) : Prop :=
  exists c, Git.heads r !! b = Some c /\
    (has_changes r = false \/ Git.head_commit r = Some c \/
     checkout_conflict env = false).

(** Remote bookkeeping and pushing leave branches and work tree alone. *)
Definition same_tree (r r' : Git.Repo) : Prop :=
  Git.HEAD r' = Git.HEAD r /\ Git.heads r' = Git.heads r /\
  Git.index_dirty r' = Git.index_dirty r /\ Git.worktree_dirty r' = Git.worktree_dirty r.

(** The exceptions a submission with the remote already present has to tell
    apart: the unbound local, or a refusal of git. *)
Definition unbound_or_git (res : result unit) : Prop :=
  res = Raise (UnboundLocalError "remote") \/
  exists cmd, res = Raise (GitCommandError cmd).

(** The URL [create_remote] stores for the slug [s]. *)
Definition remote_url_of (env : Env) (s : string) : string :=
  Git.polish_url (expand env) ("https://github.com/" +:+ s).

(** The one push a submission can make, between the repository [r] it
    found and [r1] it left: the server takes it, no remote [trytravis]
    was in the way, and the transient branch went to the URL stored for
    the slug. *)
Definition one_push (env : Env) (self : TryTravis) (r r1 : Git.Repo)
  : Prop :=
  push_result env = Git.PushAccepted /\
  Git.remotes r !! "trytravis" = None /\
  exists s, slug self = Some s /\
    Git.pushed r1
    = (Git.pushed r ++ [(remote_url_of env s, new_branch env)])%list.

(** The outside lets the configuration step save [s]: the directory is
    there or may be made, the file may be opened, and the text is
    taken. *)
Definition can_save (env : Env) (f : FS) (s : string) : bool :=
  match config_dir_entry f with
  | Directory => true
  | Missing => makedirs_ok env
  | NotADirectory => false
  end
  && open_for_writing_ok env
  && match write_result env s with
     | Written => true
     | _ => false
     end.

(** No carriage return in the text. *)
Fixpoint no_cr (s : string) : bool :=
  match s with
  | EmptyString => true
  | String c s' => negb (Ascii.eqb c "013") && no_cr s'
  end.


(** ** Further observations *)

(** How far the guarded sequence got, read off the repository it left:
    nothing done, the transient branch [new] created on the commit [c]
    that was checked out, or the changes committed on it. *)
Inductive progress (new : string) (r r1 : Git.Repo) : Prop :=
| Untouched :
    Git.heads r1 = Git.heads r ->
    Git.index_dirty r1 = Git.index_dirty r ->
    Git.worktree_dirty r1 = Git.worktree_dirty r ->
    progress new r r1
| Branched (c : nat) :
    Git.head_commit r = Some c ->
    Git.heads r !! new = None ->
    Git.heads r1 = <[new := c]> (Git.heads r) ->
    has_changes r1 = has_changes r ->
    progress new r r1
| Committed :
    Git.heads r !! new = None ->
    Git.heads r1 = <[new := Git.next_commit r]> (Git.heads r) ->
    Git.index_dirty r1 = false ->
    has_changes r = true ->
    progress new r r1.

(** A statement keeps the relation [R] between the repository it starts
    from and the one it leaves, however it ends. *)
Definition preserves {A} (R : Git.Repo -> Git.Repo -> Prop)
    (m : ST Git.Repo A) : Prop :=
  forall r, R r (snd (m r)).

(** Every remote but [trytravis] is as before. *)
Definition other_remotes_kept (r r' : Git.Repo) : Prop :=
  forall name, name <> "trytravis" ->
    Git.remotes r' !! name = Git.remotes r !! name.

(** The exceptions of a submission that are no [RuntimeError]: [main]
    lets them through. *)
Definition escaping (e : exn) : Prop :=
  e = InvalidGitRepositoryError \/ e = TypeError \/
  e = UnboundLocalError "remote" \/ exists cmd, e = GitCommandError cmd.

(** [token_input_argv] of [main]. *)
Definition token_input_argv (argv : list string) : bool :=
  Nat.eqb (length argv) 2
  && PyStr.str_in (nth 0 argv EmptyString) ["--token"; "-t"; "-T"].

(** The single arguments [main] has a branch for. *)
Definition known_flag (arg : string) : bool :=
  PyStr.str_in arg ["-h"; "--help"; "-H"]
  || PyStr.str_in arg ["-v"; "--version"; "-V"]
  || PyStr.str_in arg ["-r"; "--repo"; "-R"].

(** What [main] makes of the outcome of its [try] body: status 0 when it
    ran through, status 1 and a line on the output for a [RuntimeError],
    and any other exception as it is. *)
Definition report (out : result unit * World) : result unit * World :=
  match out with
  | (Ok _, w') => (Raise (SystemExit 0), w')
  | (Raise e, w') =>
      if is_RuntimeError e
      then (Raise (SystemExit 1),
            set_stdout (stdout w' ++ [error_line e]) w')
      else (Raise e, w')
  end.
(** *** The configuration directory, computed when the module loads *)

Module OsPath.

Definition starts_with_slash (s : string) : bool :=
  match s with
  | String c _ => Ascii.eqb c "/"
  | EmptyString => false
  end.

Fixpoint ends_with_slash (s : string) : bool :=
  match s with
  | EmptyString => false
  | String c EmptyString => Ascii.eqb c "/"
  | String _ s' => ends_with_slash s'
  end.

Definition is_empty (s : string) : bool :=
  match s with
  | EmptyString => true
  | String _ _ => false
  end.

(** One round of the loop of [posixpath.join]. *)
Definition join_step (path b : string) : string :=
  if starts_with_slash b then b
  else if is_empty path || ends_with_slash path then path +:+ b
  else path +:+ "/" +:+ b.

(** [posixpath.join(a, *p)] *)
Definition join (a : string) (p : list string) : string :=
  fold_left join_step p a.

End OsPath.

(** What the module-level code asks of the machine.  [ntpath_join] is
    [os.path.join] as it is on Windows. *)
Record Host : Type := mkHost {
  expanduser_home : string;       (* os.path.expanduser('~') *)
  isdir : string -> bool;         (* os.path.isdir *)
  win32_importable : bool;        (* the two win32 imports succeed *)
  environ_HOME : option string;   (* os.environ.get('HOME') *)
  getuser : string;               (* getpass.getuser() *)
  host_system : string;           (* platform.system() *)
  ntpath_join : string -> string -> string
}.

(** The list the [for] loop goes through. *)
Definition home_candidates (h : Host) : list string :=
  [ match environ_HOME h with Some d => d | None => EmptyString end;
    "/home/" +:+ getuser h;
    "C:" +:+ String "092" "Users" +:+ String "092" (getuser h) ].

(** [for _home_dir in cands: if os.path.isdir(_home_dir): break]: the
    variable ends as the first candidate that is a directory, or as the
    last candidate; [cur] is its value before the loop. *)
Fixpoint for_first_dir (isdir : string -> bool) (cands : list string)
    (cur : string) : string :=
  match cands with
  | [] => cur
  | c :: rest => if isdir c then c else for_first_dir isdir rest c
  end.

(** [_home_dir] after the first [if].  When the win32 imports succeed the
    folder found is assigned to [home], and [_home_dir] keeps its value. *)
Definition _home_dir (h : Host) : string :=
  let d := expanduser_home h in
  if String.eqb d "~" || negb (isdir h d)
  then if win32_importable h then d
       else for_first_dir (isdir h) (home_candidates h) d
  else d.

Definition config_dir (h : Host) : string :=
  if String.eqb (host_system h) "Windows"
  then ntpath_join h (_home_dir h) "trytravis"
  else OsPath.join (_home_dir h) [".config"; "trytravis"].

(** ** Sample inputs *)

(** A Linux machine on which nothing outside stands in the way. *)
Definition sample_env : Env :=
  {| time_ms := 1509730000123;
     cwd := "/home/dev/project";
     exists_on_disk := fun _ => true;
     add_ok := true;
     commit_ok := true;
     commit_touches_tree := false;
     push_result := Git.PushAccepted;
     checkout_conflict := false;
     expand := fun s => s;
     makedirs_ok := true;
     open_for_writing_ok := true;
     write_result := fun _ => Written;
     crlf := false;
     platform_system := "Linux";
     platform_dist := Some ("Ubuntu", "16.04");
     platform_version := "#1 SMP";
     python_version := "3.6.1" |}.

(** The same machine with another verdict on the push. *)
Definition sample_env_push (o : Git.push_outcome) : Env :=
  {| time_ms := time_ms sample_env;
     cwd := cwd sample_env;
     exists_on_disk := exists_on_disk sample_env;
     add_ok := true;
     commit_ok := true;
     commit_touches_tree := false;
     push_result := o;
     checkout_conflict := false;
     expand := expand sample_env;
     makedirs_ok := true;
     open_for_writing_ok := true;
     write_result := write_result sample_env;
     crlf := false;
     platform_system := platform_system sample_env;
     platform_dist := platform_dist sample_env;
     platform_version := platform_version sample_env;
     python_version := python_version sample_env |}.

(** The same machine with a pre-commit hook that passes and appends to a
    tracked file, which the original branch holds in another state. *)
Definition sample_env_hook : Env :=
  {| time_ms := time_ms sample_env;
     cwd := cwd sample_env;
     exists_on_disk := exists_on_disk sample_env;
     add_ok := true;
     commit_ok := true;
     commit_touches_tree := true;
     push_result := Git.PushAccepted;
     checkout_conflict := true;
     expand := expand sample_env;
     makedirs_ok := true;
     open_for_writing_ok := true;
     write_result := write_result sample_env;
     crlf := false;
     platform_system := platform_system sample_env;
     platform_dist := platform_dist sample_env;
     platform_version := platform_version sample_env;
     python_version := python_version sample_env |}.

(** A repository on [master] with one commit and a modified file. *)
Definition sample_repo : Git.Repo :=
  Git.mkRepo (Git.OnBranch "master") {["master" := 0%nat]} false true ∅ 1 [].

(** The same repository with a remote [trytravis] left over. *)
Definition sample_repo_with_remote : Git.Repo :=
  Git.set_remotes {["trytravis" := "https://github.com/octocat/old"]}
    sample_repo.

Definition sample_world (slug : option string) (r : Git.Repo)
    (typed : list string) : World :=
  mkWorld (mkFS Directory slug) {["/home/dev/project" := r]} typed [].

(** A world in which a regular file sits where the configuration
    directory should be. *)
Definition sample_world_blocked (typed : list string) : World :=
  mkWorld (mkFS NotADirectory None) {["/home/dev/project" := sample_repo]}
          typed [].

Definition sample_self : TryTravis :=
  mkTryTravis "/home/dev/project" (Some "/octocat/hello-world").

(** The sample repository with HEAD on a commit instead of a branch. *)
Definition sample_repo_detached : Git.Repo :=
  Git.set_HEAD (Git.Detached 0) sample_repo.

(** The sample repository with a remote [origin]. *)
Definition sample_repo_with_origin : Git.Repo :=
  Git.set_remotes {["origin" := "https://github.com/dev/project"]}
    sample_repo.

(** A Linux machine where [expanduser] fails, [$HOME] is unset and only
    [/home/dev] exists. *)
Definition sample_host : Host :=
  mkHost "~" (String.eqb "/home/dev") false None "dev" "Linux"
         (fun a b => a +:+ String "092" b).

(** * Properties *)

(** ** Runs of the model *)

Example str_of_Z_millis : PyStr.str_of_Z 1509730000123 = "1509730000123".
Proof. reflexivity. Qed.

Example str_of_Z_zero : PyStr.str_of_Z 0 = "0".
Proof. reflexivity. Qed.

Example strip_both_ends : PyStr.strip "  a b
 " = "a b".
Proof. reflexivity. Qed.

Example lower_mixed : PyStr.lower "YeS" = "yes".
Proof. reflexivity. Qed.

Example match_plain :
  Re.match_github_url "https://github.com/octocat/hello-world"
  = Some ("octocat", "hello-world").
Proof. reflexivity. Qed.

Example match_www :
  Re.match_github_url "https://www.github.com/octocat/hello-world"
  = Some ("octocat", "hello-world").
Proof. reflexivity. Qed.

(** The unescaped [.] of the pattern takes any character. *)
Example match_any_dot :
  Re.match_github_url "https://github-com/octocat/hello-world"
  = Some ("octocat", "hello-world").
Proof. reflexivity. Qed.

Example match_other_host :
  Re.match_github_url "https://gitlab.com/x/y" = None.
Proof. reflexivity. Qed.

Example match_extra_path :
  Re.match_github_url "https://github.com/octocat/hello-world/issues" = None.
Proof. reflexivity. Qed.

(** A whole submission from the sample repository: the branch is back,
    the remote is gone, one push was made, and [main] exits with 1. *)
Example main_submit_sample :
  let w := sample_world (Some "/octocat/hello-world") sample_repo [] in
  let out := main sample_env [] w in
  fst out = Raise (SystemExit 1) /\
  stdout (snd out) = [error_line NotImplementedError] /\
  active_branch_at "/home/dev/project" (snd out) = Some "master" /\
  remote_at "/home/dev/project" "trytravis" (snd out) = None /\
  pushed_at "/home/dev/project" (snd out)
    = [("https://github.com//octocat/hello-world",
        "trytravis-1509730000123")].
Proof. vm_compute. done. Qed.

(** A push that fails: the git error goes through [main] uncaught. *)
Example main_submit_push_fails :
  let env := sample_env_push Git.PushFailed in
  let w := sample_world (Some "/octocat/hello-world") sample_repo [] in
  let out := main env [] w in
  fst out = Raise (GitCommandError "push") /\
  active_branch_at "/home/dev/project" (snd out) = Some "master" /\
  remote_at "/home/dev/project" "trytravis" (snd out) = None /\
  pushed_at "/home/dev/project" (snd out) = [].
Proof. vm_compute. done. Qed.


(** Python 3 strips the unit separator, code 31, as well. *)
Example strip_unit_separator :
  PyStr.strip (String "031" "a" +:+ String "031" EmptyString) = "a".
Proof. reflexivity. Qed.

Example polish_backslashes :
  Git.polish_url (fun s => s) ("https://github.com//a" +:+ String "092" "b/c")
  = "https://github.com//a/b/c".
Proof. reflexivity. Qed.

(** A push that is turned down: [remote.push()] returns, and the run ends
    as after a push that was taken. *)
Example main_submit_push_rejected :
  let env := sample_env_push Git.PushRejected in
  let w := sample_world (Some "/octocat/hello-world") sample_repo [] in
  let out := main env [] w in
  fst out = Raise (SystemExit 1) /\
  active_branch_at "/home/dev/project" (snd out) = Some "master" /\
  pushed_at "/home/dev/project" (snd out) = [].
Proof. vm_compute. done. Qed.

(** A commit whose hook leaves changes that are in the way: the push is
    made, the final checkout is refused, and the transient branch stays
    checked out. *)
Example main_submit_hook :
  let w := sample_world (Some "/octocat/hello-world") sample_repo [] in
  let out := main sample_env_hook [] w in
  fst out = Raise (GitCommandError "checkout") /\
  active_branch_at "/home/dev/project" (snd out)
    = Some "trytravis-1509730000123" /\
  remote_at "/home/dev/project" "trytravis" (snd out) = None /\
  pushed_at "/home/dev/project" (snd out)
    = [("https://github.com//octocat/hello-world",
        "trytravis-1509730000123")].
Proof. vm_compute. done. Qed.

(** ** Facts about the git commands *)

Module GitFacts.
Import Git.

Lemma same_tree_refl r : same_tree r r.
Proof. by repeat split. Qed.

Lemma same_tree_trans r1 r2 r3 :
  same_tree r1 r2 -> same_tree r2 r3 -> same_tree r1 r3.
Proof.
  intros (?&?&?&?) (?&?&?&?). repeat split; congruence.
Qed.

Lemma same_tree_has_changes r r' :
  same_tree r r' -> has_changes r' = has_changes r.
Proof. intros (_ & _ & Hi & Hw). unfold has_changes. by rewrite Hi, Hw. Qed.

Lemma same_tree_head_commit r r' :
  same_tree r r' -> head_commit r' = head_commit r.
Proof. intros (Hh & Hs & _). unfold head_commit. by rewrite Hh, Hs. Qed.

Lemma checkout_b_ok new r r1 :
  checkout_b new r = (Ok tt, r1) ->
  exists c, head_commit r = Some c /\ heads r !! new = None /\
    r1 = set_HEAD (OnBranch new) (set_heads (<[new := c]> (heads r)) r).
Proof.
  unfold checkout_b. destruct (head_commit r) as [c|]; [|discriminate].
  destruct (heads r !! new); [discriminate|].
  intros [= <-]. eauto.
Qed.

Lemma checkout_b_raise new r e r1 :
  checkout_b new r = (Raise e, r1) -> r1 = r.
Proof.
  unfold checkout_b. destruct (head_commit r); [destruct (heads r !! new)|];
    congruence.
Qed.

Lemma add_all_same ok r res r1 :
  add_all ok r = (res, r1) ->
  HEAD r1 = HEAD r /\ heads r1 = heads r /\ remotes r1 = remotes r /\
  pushed r1 = pushed r /\ (res = Ok tt -> worktree_dirty r1 = false) /\
  (forall e, res = Raise e -> r1 = r).
Proof.
  unfold add_all. destruct ok; intros [= <- <-]; simpl; repeat split; auto;
    congruence.
Qed.

Lemma commit_ok_fields ok touched b r r1 :
  HEAD r = OnBranch b -> worktree_dirty r = false ->
  commit ok touched r = (Ok tt, r1) ->
  HEAD r1 = OnBranch b /\ index_dirty r1 = false /\
  worktree_dirty r1 = touched /\ remotes r1 = remotes r /\
  pushed r1 = pushed r /\
  heads r1 = <[b := next_commit r]> (heads r).
Proof.
  unfold commit. intros Hh Hw.
  destruct (ok && index_dirty r); [|discriminate].
  rewrite Hh, Hw. intros [= <-]. simpl. auto 10.
Qed.

Lemma commit_raise ok touched r e r1 :
  commit ok touched r = (Raise e, r1) -> r1 = r.
Proof. unfold commit. destruct (ok && index_dirty r); congruence. Qed.

Lemma create_remote_same expand name url r res r1 :
  create_remote expand name url r = (res, r1) ->
  same_tree r r1 /\ pushed r1 = pushed r.
Proof.
  unfold create_remote. destruct (remotes r !! name);
    intros [= <- <-]; split; auto using same_tree_refl; by repeat split.
Qed.

Lemma push_same outcome remote r res r1 :
  push outcome remote r = (res, r1) -> same_tree r r1 /\ remotes r1 = remotes r.
Proof.
  unfold push. destruct (remotes r !! remote), (HEAD r) eqn:?, outcome;
    intros [= <- <-]; split; auto using same_tree_refl; by repeat split.
Qed.

Lemma delete_remote_same name r res r1 :
  delete_remote name r = (res, r1) ->
  same_tree r r1 /\ pushed r1 = pushed r /\ remotes r1 !! name = None.
Proof.
  unfold delete_remote. destruct (remotes r !! name) eqn:E;
    intros [= <- <-]; simpl; repeat split; auto.
  apply lookup_delete_eq.
Qed.

Lemma checkout_restorable env b r :
  restorable env b r ->
  checkout (checkout_conflict env) b r = (Ok tt, set_HEAD (OnBranch b) r).
Proof.
  intros (c & Hc & Hd). unfold checkout. rewrite Hc.
  fold (has_changes r).
  destruct Hd as [Hd | [Hd | Hd]]; rewrite Hd; simpl; [done| |].
  - rewrite bool_decide_eq_true_2 by done. simpl.
    by rewrite andb_false_r.
  - by rewrite andb_false_r.
Qed.

Lemma checkout_on_branch conflict b r :
  HEAD r = OnBranch b -> HEAD (snd (checkout conflict b r)) = OnBranch b.
Proof.
  intros Hh. unfold checkout. destruct (heads r !! b); [|done].
  by destruct (_ && _ && _).
Qed.

Lemma checkout_frame conflict b r :
  remotes (snd (checkout conflict b r)) = remotes r /\
  pushed (snd (checkout conflict b r)) = pushed r /\
  heads (snd (checkout conflict b r)) = heads r /\
  index_dirty (snd (checkout conflict b r)) = index_dirty r /\
  worktree_dirty (snd (checkout conflict b r)) = worktree_dirty r.
Proof.
  unfold checkout. destruct (heads r !! b); [|done].
  by destruct (_ && _ && _).
Qed.

(** A refusal leaves the repository as it is. *)
Lemma checkout_refused conflict b r e r1 :
  checkout conflict b r = (Raise e, r1) ->
  r1 = r /\ e = GitCommandError "checkout" /\
  (heads r !! b = None \/
   exists c, heads r !! b = Some c /\ has_changes r = true /\
     head_commit r <> Some c /\ conflict = true).
Proof.
  unfold checkout. destruct (heads r !! b) as [c|] eqn:Hc.
  - fold (has_changes r).
    destruct (has_changes r) eqn:Hd; simpl; [|discriminate].
    destruct (bool_decide (head_commit r = Some c)) eqn:Ht; simpl;
      [discriminate|].
    destruct conflict; [|discriminate].
    intros [= <- <-]. split; [done|]. split; [done|]. right.
    exists c. apply bool_decide_eq_false in Ht. auto.
  - intros [= <- <-]. auto.
Qed.

Lemma checkout_b_raise_kind new r e r1 :
  checkout_b new r = (Raise e, r1) -> e = GitCommandError "checkout".
Proof.
  unfold checkout_b. destruct (head_commit r); [destruct (heads r !! new)|];
    congruence.
Qed.

Lemma add_all_raise_kind ok r e r1 :
  add_all ok r = (Raise e, r1) -> e = GitCommandError "add".
Proof. unfold add_all. destruct ok; congruence. Qed.

Lemma commit_raise_kind ok touched r e r1 :
  commit ok touched r = (Raise e, r1) -> e = GitCommandError "commit".
Proof. unfold commit. destruct (ok && index_dirty r); congruence. Qed.

Lemma push_raise_kind outcome n r e r1 :
  push outcome n r = (Raise e, r1) -> e = GitCommandError "push".
Proof.
  unfold push. destruct (remotes r !! n), (HEAD r), outcome; congruence.
Qed.

Lemma commit_remotes ok touched r res r1 :
  commit ok touched r = (res, r1) -> remotes r1 = remotes r.
Proof.
  unfold commit. destruct (ok && index_dirty r); intros [= <- <-]; [|done].
  by destruct (HEAD r).
Qed.

Lemma checkout_b_remotes new r res r1 :
  checkout_b new r = (res, r1) -> remotes r1 = remotes r.
Proof.
  unfold checkout_b. destruct (head_commit r); [destruct (heads r !! new)|];
    by intros [= <- <-].
Qed.

End GitFacts.

Section Submit.
Import Git GitFacts.
Variables (env : Env) (self : TryTravis).

Lemma add_remote_spec r res r1 :
  add_remote env self r = (res, r1) ->
  same_tree r r1 /\ pushed r1 = pushed r /\
  match slug self, remotes r !! "trytravis" with
  | Some s, None =>
      res = Ok (Some "trytravis") /\
      remotes r1 = <["trytravis" := remote_url_of env s]> (remotes r)
  | _, _ => res = Ok None /\ r1 = r
  end.
Proof.
  unfold add_remote, try_except, try_catch, bind, remote_url, ret, raise,
    create_remote, remote_url_of.
  destruct (slug self) as [s|]; simpl.
  - destruct (remotes r !! "trytravis") eqn:E; rewrite ?E; simpl;
      intros [= <- <-]; repeat split; auto.
  - intros [= <- <-]. repeat split; auto.
Qed.

Lemma push_local_spec remote r res r1 :
  push_local env remote r = (res, r1) ->
  same_tree r r1 /\ remotes r1 = remotes r /\
  match remote with
  | None => res = Raise (UnboundLocalError "remote") /\ r1 = r
  | Some n =>
      pushed r1 = pushed r \/
      (res = Ok tt /\ push_result env = PushAccepted /\
       exists url b : string, remotes r !! n = Some url /\
         HEAD r = OnBranch b /\ pushed r1 = (pushed r ++ [(url, b)])%list)
  end.
Proof.
  unfold push_local. destruct remote as [n|].
  - intros H. destruct (push_same _ _ _ _ _ H) as [Hs Hr].
    split; [done|]. split; [done|]. revert H. unfold push.
    destruct (remotes r !! n) as [url|], (HEAD r) as [b|c],
      (push_result env); intros [= <- <-]; auto.
    right. split; [done|]. split; [done|]. eauto.
  - intros [= <- <-]. repeat split; auto.
Qed.

(** What the outer [try] leaves behind, from a repository on branch [b]:
    either nothing was done, or the transient branch is checked out and
    [b] is where it was, with changes in the tree only before the commit
    or from its hooks. *)
Lemma submit_try_spec b r res r1 :
  HEAD r = OnBranch b ->
  submit_try env self r = (res, r1) ->
  ((r1 = r /\ res <> Ok tt) \/
   (HEAD r1 = OnBranch (new_branch env) /\ new_branch env <> b /\
    exists c, heads r1 !! b = Some c /\
      (has_changes r1 = false \/ head_commit r1 = Some c \/
       commit_touches_tree env = true))) /\
  (pushed r1 = pushed r \/
   (res = Ok tt /\ push_result env = PushAccepted /\
    exists s, slug self = Some s /\
      pushed r1 = (pushed r ++ [(remote_url_of env s, new_branch env)])%list)) /\
  (res = Ok tt ->
     HEAD r1 = OnBranch (new_branch env) /\
     remotes r !! "trytravis" = None /\
     exists s, slug self = Some s /\
       remotes r1 = <["trytravis" := remote_url_of env s]> (remotes r)) /\
  (is_Some (remotes r !! "trytravis") \/ slug self = None ->
     pushed r1 = pushed r /\ res <> Ok tt).
Proof.
  intros Hb. unfold submit_try, bind.
  destruct (checkout_b (new_branch env) r) as [[[]|e1] ra] eqn:E1.
  2:{ apply checkout_b_raise in E1 as ->. intros [= <- <-].
      split; [left; split; [done|discriminate]|].
      split; [auto|]. split; [discriminate|done]. }
  apply checkout_b_ok in E1 as (c & Hc & Hnew & ->).
  assert (Hbc : heads r !! b = Some c).
  { unfold head_commit in Hc. by rewrite Hb in Hc. }
  assert (Hne : new_branch env <> b).
  { intros E. rewrite E in Hnew. congruence. }
  set (ra := set_HEAD _ _).
  assert (Ha : heads ra !! b = Some c /\ head_commit ra = Some c /\
               HEAD ra = OnBranch (new_branch env) /\
               remotes ra = remotes r /\ pushed ra = pushed r).
  { subst ra. unfold head_commit. simpl.
    rewrite lookup_insert_eq, lookup_insert_ne by done. auto. }
  clearbody ra. destruct Ha as (Hab & Hac & Hah & Har & Hap).
  destruct (add_all (add_ok env) ra) as [[[]|e2] rb] eqn:E2.
  2:{ apply add_all_same in E2 as (_&_&_&_&_&E2). rewrite (E2 e2 eq_refl).
      intros [= <- <-].
      split; [right; split; [done|]; split; [done|]; exists c; auto|].
      split; [auto|]. split; [discriminate|done]. }
  apply add_all_same in E2 as (Hbh & Hbs & Hbr & Hbp & Hbw & _).
  specialize (Hbw eq_refl).
  assert (Hbb : heads rb !! b = Some c) by (by rewrite Hbs).
  assert (Hbc' : head_commit rb = Some c).
  { unfold head_commit in *. by rewrite Hbh, Hbs. }
  destruct (commit (commit_ok env) (commit_touches_tree env) rb)
    as [[[]|e3] rc] eqn:E3.
  2:{ apply commit_raise in E3 as ->. intros [= <- <-].
      split; [right; split; [congruence|]; split; [done|]; exists c; auto|].
      split; [left; congruence|]. split; [discriminate|].
      intros _. split; [congruence|discriminate]. }
  apply (commit_ok_fields _ _ (new_branch env)) in E3
    as (Hch & Hci & Hcw & Hcr & Hcp & Hcs); [|congruence|done].
  assert (Hcb : heads rc !! b = Some c).
  { rewrite Hcs, lookup_insert_ne, Hbs by done. done. }
  assert (Hcd : has_changes rc = false \/ commit_touches_tree env = true).
  { unfold has_changes. rewrite Hci, Hcw.
    destruct (commit_touches_tree env); auto. }
  destruct (add_remote env self rc) as [[rem|e4] rd] eqn:E4.
  2:{ apply add_remote_spec in E4 as (_&_&E4).
      destruct (slug self), (remotes rc !! "trytravis");
        by destruct E4. }
  apply add_remote_spec in E4 as (Hds & Hdp & E4).
  intros E5. apply push_local_spec in E5 as (Hes & Her & E5).
  pose proof (same_tree_trans _ _ _ Hds Hes) as Hce.
  assert (Hend : HEAD r1 = OnBranch (new_branch env) /\
                 new_branch env <> b /\
                 exists c, heads r1 !! b = Some c /\
                   (has_changes r1 = false \/ head_commit r1 = Some c \/
                    commit_touches_tree env = true)).
  { split; [destruct Hce as (-> & _); done|]. split; [done|]. exists c.
    rewrite (same_tree_has_changes _ _ Hce).
    destruct Hce as (_ & -> & _). split; [done|].
    destruct Hcd; auto. }
  split; [by right|].
  assert (Hpc : pushed rc = pushed r) by congruence.
  assert (Hrc : remotes rc = remotes r) by congruence.
  rewrite Hrc in E4.
  destruct (slug self) as [s|], (remotes r !! "trytravis") as [u|] eqn:Eu;
    destruct E4 as [[= ->] E4]; try subst rd.
  1,3,4: destruct E5 as [-> ->];
    (split; [left; congruence|]; split; [discriminate|];
     intros _; split; [congruence|discriminate]).
  split.
  { destruct E5 as [E5 | (-> & Hacc & url & b' & Hu & Hb' & Hp)].
    - left. congruence.
    - right. split; [done|]. split; [done|]. exists s. split; [done|].
      rewrite E4, lookup_insert_eq in Hu. injection Hu as <-.
      destruct Hds as (Hdh & _).
      assert (b' = new_branch env) as -> by congruence.
      rewrite Hp. congruence. }
  split.
  { intros _. split; [apply Hend|]. split; [done|]. exists s.
    split; [done|]. congruence. }
  intros [[u Hu] | Hs]; [discriminate|discriminate].
Qed.

(** When the outer [try] runs through, the list of pushes has grown by
    one exactly when the server took the push. *)
Lemma submit_try_pushed_length r r1 :
  submit_try env self r = (Ok tt, r1) ->
  length (pushed r1)
  = (length (pushed r)
     + match push_result env with PushAccepted => 1 | _ => 0 end)%nat.
Proof.
  unfold submit_try, bind.
  destruct (checkout_b (new_branch env) r) as [[[]|e1] ra] eqn:E1;
    [|discriminate].
  apply checkout_b_ok in E1 as (c & _ & _ & ->).
  destruct (add_all (add_ok env) _) as [[[]|e2] rb] eqn:E2; [|discriminate].
  apply add_all_same in E2 as (_ & _ & _ & Hbp & _).
  destruct (commit (commit_ok env) (commit_touches_tree env) rb)
    as [[[]|e3] rc] eqn:E3; [|discriminate].
  assert (Hcp : pushed rc = pushed rb).
  { revert E3. unfold commit. destruct (_ && _); [|discriminate].
    intros [= <-]. by destruct (HEAD rb). }
  destruct (add_remote env self rc) as [[rem|e4] rd] eqn:E4; [|discriminate].
  apply add_remote_spec in E4 as (_ & Hdp & _).
  unfold push_local. destruct rem as [n|]; [|discriminate].
  unfold push. destruct (remotes rd !! n), (HEAD rd), (push_result env);
    intros [= <-]; simpl; rewrite ?length_app; simpl;
    rewrite Hdp, Hcp, Hbp; simpl; lia.
Qed.

End Submit.

Section SubmitWhole.
Import Git GitFacts.
Variables (env : Env) (self : TryTravis).

(** The [finally] block: the remote is gone whatever happens; the
    checkout of [b] is made, or refused with the repository on the
    branch it was on. *)
Lemma submit_finally_spec b r res r1 :
  submit_finally env b r = (res, r1) ->
  remotes r1 !! "trytravis" = None /\ pushed r1 = pushed r /\
  heads r1 = heads r /\ index_dirty r1 = index_dirty r /\
  worktree_dirty r1 = worktree_dirty r /\
  ((res = Ok tt /\ HEAD r1 = OnBranch b) \/
   (res = Raise (GitCommandError "checkout") /\ HEAD r1 = HEAD r /\
    (heads r !! b = None \/
     exists c, heads r !! b = Some c /\ has_changes r = true /\
       head_commit r <> Some c /\ checkout_conflict env = true))).
Proof.
  unfold submit_finally, bind, try_except, try_catch, ret.
  assert (Hgen : forall ra, same_tree r ra -> pushed ra = pushed r ->
            remotes ra !! "trytravis" = None ->
            checkout (checkout_conflict env) b ra = (res, r1) ->
            remotes r1 !! "trytravis" = None /\ pushed r1 = pushed r /\
            heads r1 = heads r /\ index_dirty r1 = index_dirty r /\
            worktree_dirty r1 = worktree_dirty r /\
            ((res = Ok tt /\ HEAD r1 = OnBranch b) \/
             (res = Raise (GitCommandError "checkout") /\ HEAD r1 = HEAD r /\
              (heads r !! b = None \/
               exists c, heads r !! b = Some c /\ has_changes r = true /\
                 head_commit r <> Some c /\ checkout_conflict env = true)))).
  { intros ra Hs Hp Hr E.
    destruct (checkout_frame (checkout_conflict env) b ra)
      as (F1 & F2 & F3 & F4 & F5).
    rewrite E in F1, F2, F3, F4, F5. simpl in *.
    pose proof (same_tree_has_changes _ _ Hs) as Hch.
    pose proof (same_tree_head_commit _ _ Hs) as Hhc.
    destruct Hs as (Hh & Hhs & Hi & Hw).
    split; [congruence|]. split; [congruence|]. split; [congruence|].
    split; [congruence|]. split; [congruence|].
    destruct res as [[]|e].
    - left. split; [done|]. revert E. unfold checkout.
      destruct (heads ra !! b); [|discriminate].
      destruct (_ && _ && _); [discriminate|]. by intros [= <-].
    - right. apply checkout_refused in E as (-> & -> & Hwhy).
      split; [done|]. split; [done|].
      rewrite Hhs, Hch, Hhc in Hwhy. exact Hwhy. }
  destruct (delete_remote "trytravis" r) as [[[]|e] ra] eqn:E;
    apply delete_remote_same in E as (Hs & Hp & Hr); by apply Hgen.
Qed.

(** The whole of the function on a repository whose HEAD is on [b]: the
    remote is gone; [b] is checked out again, or the last checkout was
    refused after a commit whose hooks left changes in the way. *)
Lemma submit_on_repo_spec b r res r1 :
  HEAD r = OnBranch b ->
  submit_on_repo env self r = (res, r1) ->
  remotes r1 !! "trytravis" = None /\
  ((HEAD r1 = OnBranch b /\
    (pushed r1 = pushed r \/ (res = Ok tt /\ one_push env self r r1))) \/
   (HEAD r1 = OnBranch (new_branch env) /\ new_branch env <> b /\
    res = Raise (GitCommandError "checkout") /\
    commit_touches_tree env = true /\ checkout_conflict env = true /\
    (pushed r1 = pushed r \/ one_push env self r r1))) /\
  (res = Ok tt ->
     remotes r !! "trytravis" = None /\ (exists s, slug self = Some s) /\
     (push_result env = PushAccepted -> one_push env self r r1)) /\
  (is_Some (remotes r !! "trytravis") \/ slug self = None ->
     pushed r1 = pushed r /\ res <> Ok tt).
Proof.
  intros Hb. unfold submit_on_repo, bind, active_branch. rewrite Hb.
  unfold try_finally.
  destruct (submit_try env self r) as [rt ra] eqn:Et.
  destruct (submit_try_spec _ _ _ _ _ _ Hb Et) as (Hhead & Hpush & Hok & Hno).
  destruct (submit_finally env b ra) as [rf rb] eqn:Ef.
  destruct (submit_finally_spec _ _ _ _ Ef)
    as (Hrem & Hp & Hhs & Hi & Hw & Hfin).
  intros E.
  assert (r1 = rb) as -> by (destruct rf as [[]|]; congruence).
  split; [done|].
  assert (Hres : res = Ok tt -> rt = Ok tt /\ rf = Ok tt).
  { intros ->. destruct rf as [[]|]; [|discriminate].
    injection E as ->. done. }
  assert (Hone : pushed rb = pushed r \/ (rt = Ok tt /\ one_push env self r rb)).
  { destruct Hpush as [Hpush | (-> & Hacc & s & Hs & Hpush)].
    - left. congruence.
    - right. split; [done|]. split; [done|].
      destruct (Hok eq_refl) as (_ & Hnone & _). split; [done|].
      exists s. split; [done|]. congruence. }
  split.
  { destruct Hfin as [[-> Hh] | (-> & Hh & Hwhy)].
    - left. split; [done|]. injection E as <-.
      destruct Hone as [Hone | [-> Hone]]; auto.
    - injection E as <-.
      destruct Hhead as [[-> Hne] | (Hra & Hnb & c & Hc & Hd)].
      + left. split; [congruence|]. left. congruence.
      + right. split; [congruence|]. split; [done|]. split; [done|].
        destruct Hwhy as [Hn | (c' & Hc' & Hch & Hne & Hcf)]; [congruence|].
        assert (c' = c) as -> by congruence.
        split; [destruct Hd as [Hd | [Hd | Hd]]; [congruence|done|done]|].
        split; [done|]. destruct Hone as [Hone | [_ Hone]]; auto. }
  split.
  { intros Hr. destruct (Hres Hr) as [-> ->].
    destruct (Hok eq_refl) as (_ & Hnone & s & Hs & _).
    split; [done|]. split; [eauto|]. intros Hacc.
    destruct Hone as [Hone | [_ Hone]]; [|done].
    apply submit_try_pushed_length in Et. rewrite Hacc in Et.
    rewrite <- Hp, Hone in Et. lia. }
  intros Hpre. destruct (Hno Hpre) as [Hpp Hnok].
  split; [congruence|]. intros Hr. by destruct (Hres Hr).
Qed.

(** The exceptions of the guarded sequence: refusals of git and the
    unbound local. *)
Lemma submit_try_raises r e r1 :
  submit_try env self r = (Raise e, r1) ->
  e = UnboundLocalError "remote" \/ exists cmd, e = GitCommandError cmd.
Proof.
  unfold submit_try, bind.
  destruct (checkout_b (new_branch env) r) as [[[]|e1] ra] eqn:E1.
  2:{ apply checkout_b_raise_kind in E1 as ->. intros [= <- <-]. eauto. }
  destruct (add_all (add_ok env) ra) as [[[]|e2] rb] eqn:E2.
  2:{ apply add_all_raise_kind in E2 as ->. intros [= <- <-]. eauto. }
  destruct (commit (commit_ok env) (commit_touches_tree env) rb)
    as [[[]|e3] rc] eqn:E3.
  2:{ apply commit_raise_kind in E3 as ->. intros [= <- <-]. eauto. }
  destruct (add_remote env self rc) as [[rem|e4] rd] eqn:E4.
  2:{ apply add_remote_spec in E4 as (_&_&E4).
      destruct (slug self), (remotes rc !! "trytravis"); by destruct E4. }
  unfold push_local. destruct rem as [n|].
  - intros ->%push_raise_kind. eauto.
  - intros [= <- <-]. auto.
Qed.

Lemma submit_on_repo_raises r e r1 :
  submit_on_repo env self r = (Raise e, r1) ->
  (e = TypeError /\ exists c, HEAD r = Detached c) \/
  e = UnboundLocalError "remote" \/
  exists cmd, e = GitCommandError cmd.
Proof.
  unfold submit_on_repo, bind, active_branch.
  destruct (HEAD r) as [b|c].
  2:{ intros [= <- <-]. eauto. }
  unfold try_finally.
  destruct (submit_try env self r) as [rt ra] eqn:Et.
  destruct (submit_finally env b ra) as [rf rb] eqn:Ef.
  apply submit_finally_spec in Ef as (_ & _ & _ & _ & _ & Hfin).
  destruct Hfin as [[-> _] | (-> & _)].
  - intros [= -> <-]. apply submit_try_raises in Et. auto.
  - intros [= <- <-]. eauto.
Qed.

End SubmitWhole.

Lemma with_Repo_eq {A} env p (m : ST Git.Repo A) w r :
  repos w !! p = Some r ->
  with_Repo env p m w
  = (fst (m r), set_repos (<[p := snd (m r)]> (repos w)) w).
Proof. unfold with_Repo. intros ->. by destruct (m r). Qed.

Lemma with_Repo_None {A} env p (m : ST Git.Repo A) w :
  repos w !! p = None ->
  with_Repo env p m w
  = (Raise (if path_exists env p then InvalidGitRepositoryError
            else NoSuchPathError), w).
Proof. unfold with_Repo. intros ->. by destruct (path_exists env p). Qed.

Lemma set_repos_insert_id p r w :
  repos w !! p = Some r -> set_repos (<[p := r]> (repos w)) w = w.
Proof.
  intros H. destruct w as [f rs i o]. simpl in *.
  unfold set_repos. simpl. by rewrite insert_id.
Qed.

(** ** The submission on the world *)

Section SubmitWorld.
Import Git GitFacts.
Variables (env : Env).

Lemma active_branch_at_Some p w b :
  active_branch_at p w = Some b <->
  exists r, repos w !! p = Some r /\ HEAD r = OnBranch b.
Proof.
  unfold active_branch_at, active_branch. split.
  - destruct (repos w !! p) as [r|]; [|discriminate].
    destruct (HEAD r) eqn:E; [|discriminate]. intros [= <-]. eauto.
  - intros (r & -> & ->). done.
Qed.

(** The function on the world, from a repository whose HEAD is on [b]. *)
Lemma submit_world_spec self w b :
  active_branch_at (path self) w = Some b ->
  exists res r r1,
    repos w !! path self = Some r /\
    HEAD r = OnBranch b /\
    _submit_project_to_github env self w
      = (res, set_repos (<[path self := r1]> (repos w)) w) /\
    remotes r1 !! "trytravis" = None /\
    ((HEAD r1 = OnBranch b /\
      (pushed r1 = pushed r \/ (res = Ok tt /\ one_push env self r r1))) \/
     (HEAD r1 = OnBranch (new_branch env) /\ new_branch env <> b /\
      res = Raise (GitCommandError "checkout") /\
      commit_touches_tree env = true /\ checkout_conflict env = true /\
      (pushed r1 = pushed r \/ one_push env self r r1))) /\
    (res = Ok tt ->
       remotes r !! "trytravis" = None /\ (exists s, slug self = Some s) /\
       (push_result env = PushAccepted -> one_push env self r r1)) /\
    (is_Some (remotes r !! "trytravis") \/ slug self = None ->
       pushed r1 = pushed r /\ res <> Ok tt).
Proof.
  intros (r & Hr & Hb)%active_branch_at_Some.
  unfold _submit_project_to_github. rewrite (with_Repo_eq _ _ _ _ _ Hr).
  destruct (submit_on_repo env self r) as [res r1] eqn:E.
  exists res, r, r1. split; [done|]. split; [done|]. split; [done|].
  by apply (submit_on_repo_spec env self b r).
Qed.

(** Without a readable active branch nothing is done. *)
Lemma submit_world_unreadable self w :
  active_branch_at (path self) w = None ->
  snd (_submit_project_to_github env self w) = w /\
  (fst (_submit_project_to_github env self w)
     = Raise InvalidGitRepositoryError \/
   fst (_submit_project_to_github env self w) = Raise NoSuchPathError \/
   fst (_submit_project_to_github env self w) = Raise TypeError).
Proof.
  unfold active_branch_at, _submit_project_to_github.
  destruct (repos w !! path self) as [r|] eqn:Hr.
  - rewrite (with_Repo_eq _ _ _ _ _ Hr).
    unfold submit_on_repo, bind, Git.active_branch.
    destruct (Git.HEAD r); [discriminate|]. intros _. simpl.
    split; [by apply set_repos_insert_id|auto].
  - rewrite (with_Repo_None _ _ _ _ Hr). intros _. split; [done|].
    simpl. destruct (path_exists env (path self)); auto.
Qed.

(** [start] when the slug file cannot be read. *)
Lemma start_no_slug self w :
  slug_on_disk (fs w) = None ->
  start env self w
  = (Raise (RuntimeError
       "Could not find your repository. Have you ran `trytravis --repo`?"),
     w).
Proof.
  intros H. unfold start, _load_trytravis_github_slug, try_catch,
    read_slug_file, bind. cbv beta. by rewrite H.
Qed.

(** [start] when the slug file holds [s]. *)
Lemma start_with_slug self w s :
  slug_on_disk (fs w) = Some s ->
  start env self w
  = match _submit_project_to_github env
            (mkTryTravis (path self) (Some (universal_newlines s))) w
    with
    | (Ok _, w') => (Raise NotImplementedError, w')
    | (Raise e, w') => (Raise e, w')
    end.
Proof.
  intros H. unfold start, _load_trytravis_github_slug, try_catch,
    read_slug_file, bind, ret. cbv beta. rewrite H.
  by destruct (_submit_project_to_github _ _ _) as [[[]|e] w'].
Qed.


(** With the remote there already, or without a slug, no push is made
    and the call does not return. *)
Lemma submit_no_push self w :
  is_Some (remote_at (path self) "trytravis" w) \/ slug self = None ->
  (forall v, fst (_submit_project_to_github env self w) <> Ok v) /\
  pushed_at (path self) (snd (_submit_project_to_github env self w))
  = pushed_at (path self) w.
Proof.
  intros Hpre.
  destruct (active_branch_at (path self) w) as [b|] eqn:Hb.
  - destruct (submit_world_spec self w b Hb)
      as (res & r & r1 & Hr & _ & -> & _ & _ & _ & Hno).
    unfold remote_at in Hpre. rewrite Hr in Hpre.
    destruct (Hno Hpre) as [Hp Hne].
    unfold pushed_at. simpl. rewrite lookup_insert_eq, Hr.
    split; [|done]. intros []. done.
  - destruct (submit_world_unreadable self w Hb) as [-> Hres].
    split; [|done]. intros v.
    destruct Hres as [-> | [-> | ->]]; discriminate.
Qed.



End SubmitWorld.

(** ** The claims on the submission *)




(** C8.  When the slug file is missing, [start] raises the error that
    asks for [trytravis --repo] at once and the world is left exactly as
    it was: no git command has run, so no branch has been created. *)
Theorem start_without_slug_file env self w :
  slug_on_disk (fs w) = None ->
  start env self w
  = (Raise (RuntimeError
       "Could not find your repository. Have you ran `trytravis --repo`?"),
     w) /\
  branches_at (path self) (snd (start env self w))
  = branches_at (path self) w.
Proof.
  intros H. rewrite (start_no_slug env self w H). done.
Qed.



(** ** A remote [trytravis] that is already there *)

(** C3.  With a remote [trytravis] already present, the submission never
    gets a push done: it ends with [UnboundLocalError] for the local
    [remote] (or with the refusal of an earlier git command), and the
    list of pushes is as before. *)
Theorem submit_with_existing_remote env self w b u :
  active_branch_at (path self) w = Some b ->
  remote_at (path self) "trytravis" w = Some u ->
  unbound_or_git (fst (_submit_project_to_github env self w)) /\
  pushed_at (path self) (snd (_submit_project_to_github env self w))
  = pushed_at (path self) w.
Proof.
  intros Hb Hu.
  destruct (submit_no_push env self w) as [Hne Hp]; [left; eauto|].
  split; [|done].
  apply active_branch_at_Some in Hb as (r & Hr & Hb).
  unfold _submit_project_to_github in *.
  rewrite (with_Repo_eq _ _ _ _ _ Hr) in *.
  destruct (submit_on_repo env self r) as [res r1] eqn:E. simpl in *.
  destruct res as [[]|e]; [by destruct (Hne tt)|].
  apply submit_on_repo_raises in E
    as [[_ [c Hc]] | [-> | [cmd ->]]]; [congruence|by left|right; eauto].
Qed.

(** In the sample repository with a left-over remote, where every git
    command before the push is accepted, the exception is the unbound
    local and nothing is pushed. *)
Example submit_existing_remote_sample :
  let w := sample_world (Some "/octocat/hello-world")
                        sample_repo_with_remote [] in
  fst (_submit_project_to_github sample_env sample_self w)
    = Raise (UnboundLocalError "remote") /\
  pushed_at "/home/dev/project"
    (snd (_submit_project_to_github sample_env sample_self w)) = [].
Proof. vm_compute. done. Qed.

(** C4.  With the slug [/octocat/hello-world], when the guarded sequence
    has run through, the remote [trytravis] points at the URL with a
    doubled slash after the host, which is not the URL of the
    repository; the branch checked out is [trytravis-] followed by the
    clock's milliseconds in decimal. *)
Theorem submit_try_octocat env p b r r1 :
  Git.HEAD r = Git.OnBranch b ->
  submit_try env (mkTryTravis p (Some "/octocat/hello-world")) r
    = (Ok tt, r1) ->
  Git.remotes r1 !! "trytravis"
    = Some "https://github.com//octocat/hello-world" /\
  Git.HEAD r1
    = Git.OnBranch ("trytravis-" +:+ PyStr.str_of_Z (time_ms env)) /\
  Git.remotes r1 !! "trytravis"
    <> Some "https://github.com/octocat/hello-world".
Proof.
  intros Hb E.
  destruct (submit_try_spec env _ b r _ r1 Hb E) as (_ & _ & Hok & _).
  destruct (Hok eq_refl) as (Hh & _ & s & [= <-] & Hr).
  rewrite Hr, lookup_insert_eq.
  change (remote_url_of env "/octocat/hello-world")
    with "https://github.com//octocat/hello-world".
  split; [done|]. split; [done|]. discriminate.
Qed.
(** ** The URL pattern and the function that matches it *)

Section Pattern.
Import Regex PyStr Re.

Lemma append_cons c s t : String c s +:+ t = String c (s +:+ t).
Proof. reflexivity. Qed.

Lemma append_empty_l t : EmptyString +:+ t = t.
Proof. reflexivity. Qed.

Lemma append_empty_r s : s +:+ EmptyString = s.
Proof.
  induction s as [|c s IH]; [done|]. by rewrite append_cons, IH.
Qed.

Lemma strip_prefix_app p s : strip_prefix p (p +:+ s) = Some s.
Proof.
  induction p as [|a p IH]; [done|].
  rewrite append_cons. simpl. by rewrite Ascii.eqb_refl.
Qed.

Lemma strip_prefix_Some p s t : strip_prefix p s = Some t -> s = p +:+ t.
Proof.
  revert s. induction p as [|a p IH]; intros s; simpl.
  - by intros [= ->].
  - destruct s as [|b s]; [discriminate|].
    destruct (Ascii.eqb a b) eqn:E; [|discriminate].
    apply Ascii.eqb_eq in E as ->. intros H%IH. by rewrite H, append_cons.
Qed.

Lemma plus_not_slash s :
  matches (Plus NotSlash) s <-> s <> EmptyString /\ no_slash s = true.
Proof.
  split.
  - intros H. remember (Plus NotSlash) as re eqn:Ere.
    induction H as [| | | | | |r s H _|r s1 s2 H1 _ H2 IH2]; try discriminate;
      injection Ere as ->.
    + inversion H as [| |c Hc| | | | |]; subst. split; [done|].
      simpl. apply Ascii.eqb_neq in Hc. by rewrite Hc.
    + inversion H1 as [| |c Hc| | | | |]; subst.
      destruct (IH2 eq_refl) as [_ Hn]. split; [done|].
      simpl. apply Ascii.eqb_neq in Hc. by rewrite Hc.
  - intros [Hne Hn]. induction s as [|c s IH]; [done|].
    simpl in Hn. apply andb_true_iff in Hn as [Hc Hs].
    apply negb_true_iff, Ascii.eqb_neq in Hc.
    destruct s as [|d s].
    + apply M_PlusOne. by constructor.
    + apply (M_PlusMore NotSlash (String c EmptyString) (String d s)).
      * by constructor.
      * by apply IH.
Qed.

Lemma span_not_slash_spec s :
  s = fst (span_not_slash s) +:+ snd (span_not_slash s) /\
  no_slash (fst (span_not_slash s)) = true /\
  (snd (span_not_slash s) = EmptyString \/
   exists t, snd (span_not_slash s) = String "/" t).
Proof.
  induction s as [|c s (IH1 & IH2 & IH3)]; simpl; [auto|].
  destruct (Ascii.eqb c "/") eqn:E.
  - apply Ascii.eqb_eq in E as ->. simpl. eauto.
  - destruct (span_not_slash s) as [a b]. simpl in *.
    rewrite E, IH2, append_cons. split; [by rewrite IH1 at 1|]. auto.
Qed.

Lemma span_not_slash_app a t :
  no_slash a = true -> span_not_slash (a +:+ String "/" t) = (a, String "/" t).
Proof.
  induction a as [|c a IH]; [done|]. rewrite append_cons. simpl.
  intros [Hc Ha]%andb_true_iff. apply negb_true_iff in Hc.
  by rewrite Hc, (IH Ha).
Qed.

Lemma span_not_slash_all a :
  no_slash a = true -> span_not_slash a = (a, EmptyString).
Proof.
  induction a as [|c a IH]; simpl; [done|].
  intros [Hc Ha]%andb_true_iff. apply negb_true_iff in Hc.
  by rewrite Hc, (IH Ha).
Qed.


(** What the groups are when the match succeeds. *)
Lemma match_github_url_sound url a n :
  match_github_url url = Some (a, n) ->
  exists www dot,
    url = "https://" +:+ www +:+ "github"
          +:+ String dot ("com/" +:+ a +:+ String "/" n) /\
    (www = EmptyString \/ www = "www.") /\ dot <> "010"%char /\
    a <> EmptyString /\ n <> EmptyString /\ no_slash a = true /\ no_slash n = true.
Proof.
  unfold match_github_url.
  destruct (strip_prefix "https://" url) as [s1|] eqn:E1; [|discriminate].
  apply strip_prefix_Some in E1 as ->.
  assert (Hw : exists www, s1 = www +:+ skip_www s1 /\
                           (www = EmptyString \/ www = "www.")).
  { unfold skip_www. destruct (strip_prefix "www." s1) as [s1'|] eqn:Ew.
    - apply strip_prefix_Some in Ew. exists "www.". auto.
    - exists EmptyString. auto. }
  destruct Hw as (www & Hs1 & Hwww).
  destruct (strip_prefix "github" (skip_www s1)) as [[|dot s2]|] eqn:E2;
    try discriminate.
  apply strip_prefix_Some in E2. rewrite E2 in Hs1. clear E2.
  destruct (Ascii.eqb dot "010") eqn:Ed; [discriminate|].
  apply Ascii.eqb_neq in Ed.
  destruct (strip_prefix "com/" s2) as [s3|] eqn:E3; [|discriminate].
  apply strip_prefix_Some in E3 as ->.
  destruct (span_not_slash_spec s3) as (Hs3 & Ha & Hb).
  destruct (span_not_slash s3) as [[|a0 author] [|c s4]]; try discriminate.
  simpl in Hs3, Ha, Hb.
  destruct Hb as [?|[t [= -> ->]]]; [discriminate|].
  destruct (span_not_slash_spec t) as (Hs4 & Hn & _).
  destruct (span_not_slash t) as [[|n0 name] [|? ?]]; try discriminate.
  simpl in Hs4, Hn. intros [= <- <-].
  exists www, dot. rewrite Hs1, Hs3, Hs4.
  rewrite append_empty_r.
  repeat split; done.
Qed.

Lemma match_github_url_complete www dot a n :
  www = EmptyString \/ www = "www." -> dot <> "010"%char ->
  a <> EmptyString -> n <> EmptyString -> no_slash a = true -> no_slash n = true ->
  match_github_url ("https://" +:+ www +:+ "github"
                    +:+ String dot ("com/" +:+ a +:+ String "/" n))
  = Some (a, n).
Proof.
  intros Hwww Hd Ha Hn Hsa Hsn. apply Ascii.eqb_neq in Hd.
  unfold match_github_url.
  assert (skip_www (www +:+ "github"
                    +:+ String dot ("com/" +:+ a +:+ String "/" n))
          = "github" +:+ String dot ("com/" +:+ a +:+ String "/" n)) as Hskip
    by (by destruct Hwww as [-> | ->]).
  rewrite strip_prefix_app, Hskip, strip_prefix_app, Hd, strip_prefix_app.
  rewrite (span_not_slash_app a n Hsa), (span_not_slash_all n Hsn).
  destruct a; [done|]. by destruct n.
Qed.

(** The function accepts exactly the texts the pattern matches. *)
Lemma match_github_url_matches url :
  is_Some (match_github_url url) <-> matches github_url_re url.
Proof.
  split.
  - intros [[a n] H].
    apply match_github_url_sound in H
      as (www & dot & -> & Hwww & Hd & Ha & Hn & Hsa & Hsn).
    unfold github_url_re.
    apply (M_Cat (Lit "https://") _ "https://"); [constructor|].
    apply M_Cat.
    { destruct Hwww as [-> | ->]; [apply M_OptNone|apply M_OptSome];
        constructor. }
    apply (M_Cat (Lit "github") _ "github"); [constructor|].
    apply (M_Cat Dot _ (String dot EmptyString)); [by constructor|].
    apply (M_Cat (Lit "com/") _ "com/"); [constructor|].
    apply M_Cat; [by apply plus_not_slash|].
    apply (M_Cat (Lit "/") _ "/"); [constructor|by apply plus_not_slash].
  - unfold github_url_re. intros H.
    repeat match goal with
           | H : matches (Cat _ _) _ |- _ => inversion H; subst; clear H
           | H : matches (Lit _) _ |- _ => inversion H; subst; clear H
           | H : matches Dot _ |- _ => inversion H; subst; clear H
           end.
    match goal with
    | H1 : matches (Plus NotSlash) ?a, H2 : matches (Plus NotSlash) ?n |- _ =>
        apply plus_not_slash in H1 as [Ha Hsa];
        apply plus_not_slash in H2 as [Hn Hsn]; exists (a, n)
    end.
    match goal with
    | H : matches (Opt _) ?w |- _ =>
        assert (w = EmptyString \/ w = "www.") as Hwww
          by (inversion H as [| | | |?|? ? H'| |]; subst;
              [by left | inversion H'; by right])
    end.
    by apply (match_github_url_complete _ _ _ _ Hwww).
Qed.

End Pattern.

(** ** The command line *)

Section CommandLine.
Variables (env : Env).

(** Evaluates the statements of [setup_repo] while leaving the string
    functions on the user's text alone. *)
Ltac run_setup :=
  cbn -[PyStr.str_in PyStr.lower PyStr.strip Re.match_github_url
        confirm_prompt slug_of to_linesep].

Lemma repo_flag_cases arg :
  repo_flag arg = true -> arg = "-r" \/ arg = "--repo" \/ arg = "-R".
Proof.
  unfold repo_flag, PyStr.str_in. cbn [existsb].
  rewrite orb_false_r, !orb_true_iff, !String.eqb_eq. tauto.
Qed.

Lemma accepted_iff answer :
  accepted answer = true <->
  PyStr.lower answer = "y" \/ PyStr.lower answer = "yes".
Proof.
  unfold accepted, PyStr.str_in. cbn [existsb].
  by rewrite orb_false_r, orb_true_iff, !String.eqb_eq.
Qed.

(** One call of [main] is enough for [--help]. *)
Lemma main_help d w :
  main_depth (S d) env ["--help"] w
  = (Raise (SystemExit 0), set_stdout (stdout w ++ [help_text]) w).
Proof. reflexivity. Qed.

(** With a single argument that selects the configuration step, [main]
    runs [setup_repo] and turns its outcome into an exit status. *)
Lemma main_repo_flag d arg w :
  repo_flag arg = true ->
  main_depth (S d) env [arg] w = report (setup_repo env [arg] w).
Proof.
  intros [-> | [-> | ->]]%repo_flag_cases.
  all: simpl main_depth; unfold main_body, try_except_else, bind,
         colorama_init, ret, sys_exit, raise, print, report; simpl.
  all: destruct (setup_repo _ _ w) as [[[]|e] w']; try done.
  all: by destruct (is_RuntimeError e).
Qed.

(** The configuration step on a rejected URL typed at the prompt. *)
Lemma setup_repo_invalid arg w url rest :
  stdin w = url :: rest ->
  Re.match_github_url (PyStr.strip url) = None ->
  setup_repo env [arg] w
  = (Raise (RuntimeError invalid_url_message),
     set_stdin rest (set_stdout (stdout w ++ [url_prompt]) w)).
Proof.
  intros Hin Hm. unfold setup_repo, bind, user_input. run_setup.
  rewrite Hin, Hm. done.
Qed.

(** The configuration step on an accepted URL and a declined
    confirmation. *)
Lemma setup_repo_declined arg w url answer rest author name :
  stdin w = url :: answer :: rest ->
  Re.match_github_url (PyStr.strip url) = Some (author, name) ->
  accepted answer = false ->
  setup_repo env [arg] w
  = (Raise (RuntimeError aborted_message),
     set_stdin rest
       (set_stdout
          (stdout w ++ [url_prompt] ++ [confirm_prompt author name])%list w)).
Proof.
  intros Hin Hm Ha. unfold setup_repo, bind, user_input. run_setup.
  rewrite Hin, Hm. run_setup. unfold accepted in Ha. rewrite Ha. run_setup.
  unfold raise, set_stdin, set_stdout. run_setup. by rewrite <- app_assoc.
Qed.

(** The configuration step on an accepted URL and a confirmation, when
    the outside lets the slug be saved. *)
Lemma setup_repo_saved arg w url answer rest author name :
  stdin w = url :: answer :: rest ->
  Re.match_github_url (PyStr.strip url) = Some (author, name) ->
  accepted answer = true ->
  can_save env (fs w) (slug_of author name) = true ->
  exists w',
    setup_repo env [arg] w = (Ok tt, w') /\
    fs w' = mkFS Directory
              (Some (to_linesep (crlf env) (slug_of author name))) /\
    repos w' = repos w /\ stdin w' = rest.
Proof.
  intros Hin Hm Ha Hs. unfold setup_repo, bind, user_input. run_setup.
  rewrite Hin, Hm. run_setup. unfold accepted in Ha. rewrite Ha. run_setup.
  unfold isdir_config_dir, makedirs_config_dir, write_slug_file, print, ret,
    bind.
  run_setup. unfold can_save in Hs.
  destruct (config_dir_entry (fs w)) eqn:Ed; run_setup; rewrite ?Ed;
    run_setup.
  - destruct (makedirs_ok env); [|done]. run_setup.
    destruct (open_for_writing_ok env); [|done].
    destruct (write_result env (slug_of author name)); [|done..].
    run_setup. eauto.
  - done.
  - destruct (open_for_writing_ok env); [|done].
    destruct (write_result env (slug_of author name)); [|done..].
    run_setup. rewrite ?Ed. eauto.
Qed.

(** The same when the outside does not: an error of the operating system
    or of the encoding comes out of the step, and the file is as it was
    or empty. *)
Lemma setup_repo_not_saved arg w url answer rest author name :
  stdin w = url :: answer :: rest ->
  Re.match_github_url (PyStr.strip url) = Some (author, name) ->
  accepted answer = true ->
  can_save env (fs w) (slug_of author name) = false ->
  exists e w',
    setup_repo env [arg] w = (Raise e, w') /\
    (e = FileExistsError \/ e = OSError \/ e = UnicodeEncodeError) /\
    (slug_file (fs w') = slug_file (fs w) \/
     slug_file (fs w') = Some EmptyString) /\
    (config_dir_entry (fs w) = NotADirectory ->
     e = FileExistsError /\ fs w' = fs w) /\
    repos w' = repos w /\ stdin w' = rest.
Proof.
  intros Hin Hm Ha Hs. unfold setup_repo, bind, user_input. run_setup.
  rewrite Hin, Hm. run_setup. unfold accepted in Ha. rewrite Ha. run_setup.
  unfold isdir_config_dir, makedirs_config_dir, write_slug_file, print, ret,
    bind.
  run_setup. unfold can_save in Hs.
  destruct (config_dir_entry (fs w)) eqn:Ed; run_setup; rewrite ?Ed;
    run_setup.
  all: destruct (makedirs_ok env); run_setup; rewrite ?Ed.
  all: destruct (open_for_writing_ok env); run_setup; rewrite ?Ed.
  all: destruct (write_result env (slug_of author name)); try done;
    run_setup; rewrite ?Ed.
  all: eexists _, _; (split; [reflexivity|]); run_setup; rewrite ?Ed.
  all: split; [auto|]; split; [auto|];
    split; [first [by intros | by auto]|auto].
Qed.

End CommandLine.

(** Text without a carriage return is read back as it was written. *)
Lemma universal_newlines_to_linesep crlf s :
  no_cr s = true -> universal_newlines (to_linesep crlf s) = s.
Proof.
  induction s as [|c s IH]; [done|].
  cbn [no_cr to_linesep]. intros [Hc Hs]%andb_true_iff.
  apply negb_true_iff in Hc. specialize (IH Hs).
  destruct (crlf && Ascii.eqb c "010") eqn:E.
  - apply andb_true_iff in E as [_ ->%Ascii.eqb_eq].
    cbn [universal_newlines]. change (Ascii.eqb "013" "013") with true.
    change (Ascii.eqb "010" "010") with true. cbv iota. by rewrite IH.
  - cbn [universal_newlines]. rewrite Hc. by rewrite IH.
Qed.

Lemma no_cr_app a b : no_cr (a +:+ b) = no_cr a && no_cr b.
Proof.
  induction a as [|c a IH]; [done|].
  rewrite append_cons. cbn [no_cr]. by rewrite IH, andb_assoc.
Qed.

Lemma no_cr_slug_of author name :
  no_cr author = true -> no_cr name = true ->
  no_cr (slug_of author name) = true.
Proof.
  intros Ha Hn. unfold slug_of. rewrite !no_cr_app, Ha, Hn. done.
Qed.

(** C5.  Called with the two arguments [--repo] and a URL, whatever the
    URL, [main] prints the usage text and exits with status 0: the URL
    is not looked at, nothing is asked, and the configuration file is
    not touched. *)
Theorem main_repo_with_url_prints_help env url w :
  main env ["--repo"; url] w
  = (Raise (SystemExit 0), set_stdout (stdout w ++ [help_text]) w).
Proof. reflexivity. Qed.

(** The nesting of calls of [main] never goes beyond two, so any limit
    from two on gives the same run. *)
Lemma main_depth_stable d env argv w :
  main_depth (S (S d)) env argv w = main_depth 2 env argv w.
Proof.
  change (main_body (main_depth (S d) env) env argv w
          = main_body (main_depth 1 env) env argv w).
  unfold main_body, try_except_else, bind.
  destruct (colorama_init w) as [[[]|e] w0]; [|done].
  destruct (_ && _); [|done].
  by rewrite !main_help.
Qed.

(** C6, as the code has it.  When the configuration step has accepted a
    URL typed at the prompt, the user has confirmed and the outside lets
    the file be written, [main] exits with status 0, the file holds the
    slug built from the owner and the name with each line feed written
    as the line separator, and the read that opens a submission returns
    that text with every line ending, carriage returns included, turned
    into a line feed.  It is exactly the slug when owner and name hold
    no carriage return. *)
Theorem config_write_then_read env arg w url answer rest author name self :
  repo_flag arg = true ->
  stdin w = url :: answer :: rest ->
  Re.match_github_url (PyStr.strip url) = Some (author, name) ->
  accepted answer = true ->
  can_save env (fs w) (slug_of author name) = true ->
  fst (main env [arg] w) = Raise (SystemExit 0) /\
  slug_on_disk (fs (snd (main env [arg] w)))
    = Some (to_linesep (crlf env) ("/" +:+ author +:+ "/" +:+ name)) /\
  _load_trytravis_github_slug self (snd (main env [arg] w))
    = (Ok (mkTryTravis (path self)
             (Some (universal_newlines
                      (to_linesep (crlf env)
                         ("/" +:+ author +:+ "/" +:+ name))))),
       snd (main env [arg] w)) /\
  (no_cr author = true -> no_cr name = true ->
   _load_trytravis_github_slug self (snd (main env [arg] w))
     = (Ok (mkTryTravis (path self)
              (Some ("/" +:+ author +:+ "/" +:+ name))),
        snd (main env [arg] w))).
Proof.
  intros Hf Hin Hm Ha Hs. unfold main, recursion_limit.
  rewrite (main_repo_flag env _ arg w Hf).
  destruct (setup_repo_saved env arg w url answer rest author name
              Hin Hm Ha Hs) as (w' & -> & Hfs & _).
  simpl.
  assert (Hd : slug_on_disk (fs w')
               = Some (to_linesep (crlf env) (slug_of author name)))
    by (by rewrite Hfs).
  split; [done|]. split; [done|].
  assert (Hl : _load_trytravis_github_slug self w'
               = (Ok (mkTryTravis (path self)
                        (Some (universal_newlines
                                 (to_linesep (crlf env)
                                    (slug_of author name))))), w')).
  { unfold _load_trytravis_github_slug, try_catch, read_slug_file, bind, ret.
    cbv beta. by rewrite Hd. }
  split; [done|].
  intros Hca Hcn. rewrite Hl.
  by rewrite (universal_newlines_to_linesep _ _
                (no_cr_slug_of author name Hca Hcn)).
Qed.

(** The original wording of C6 fails: a carriage return in the name of
    the owner, which the pattern lets through, is written to the file
    and read back as a line feed. *)
Lemma config_carriage_return_read_as_line_feed :
  let url := "https://github.com/a" +:+ String "013" "b/c" in
  let w := sample_world None sample_repo [url; "y"] in
  Re.match_github_url (PyStr.strip url) = Some ("a" +:+ String "013" "b", "c")
  /\ fst (main sample_env ["--repo"] w) = Raise (SystemExit 0) /\
  slug_file (fs (snd (main sample_env ["--repo"] w)))
    = Some ("/a" +:+ String "013" "b/c") /\
  fst (_load_trytravis_github_slug (TryTravis_init "/home/dev/project")
         (snd (main sample_env ["--repo"] w)))
    = Ok (mkTryTravis "/home/dev/project"
            (Some ("/a" +:+ String "010" "b/c"))) /\
  fst (_load_trytravis_github_slug (TryTravis_init "/home/dev/project")
         (snd (main sample_env ["--repo"] w)))
    <> Ok (mkTryTravis "/home/dev/project"
             (Some ("/a" +:+ String "013" "b/c"))).
Proof. vm_compute. repeat split; done. Qed.

(** C7, as the code has it.  A URL typed at the prompt whose text,
    once leading and trailing whitespace is removed, does not match the
    pattern makes the configuration step raise the error about the URL;
    [main] reports it with exit status 1, and the configuration file is
    as before. *)
Theorem config_rejects_unmatched_url env arg w url rest :
  repo_flag arg = true ->
  stdin w = url :: rest ->
  Re.match_github_url (PyStr.strip url) = None ->
  fst (setup_repo env [arg] w) = Raise (RuntimeError invalid_url_message) /\
  fst (main env [arg] w) = Raise (SystemExit 1) /\
  fs (snd (main env [arg] w)) = fs w.
Proof.
  intros Hf Hin Hm. unfold main, recursion_limit.
  rewrite (main_repo_flag env _ arg w Hf).
  by rewrite (setup_repo_invalid env arg w url rest Hin Hm).
Qed.

(** C7, as the claim has it, fails: a URL with a space in front does not
    match the pattern, yet the configuration step accepts it and writes
    the slug. *)
Lemma config_accepts_padded_url :
  let w := sample_world None sample_repo [" https://github.com/a/b"; "y"] in
  ~ Regex.matches Regex.github_url_re " https://github.com/a/b" /\
  Re.match_github_url " https://github.com/a/b" = None /\
  fst (main sample_env ["--repo"] w) = Raise (SystemExit 0) /\
  slug_file (fs w) = None /\
  slug_file (fs (snd (main sample_env ["--repo"] w))) = Some "/a/b".
Proof.
  split.
  - intros [x Hx]%match_github_url_matches. discriminate Hx.
  - vm_compute. done.
Qed.

(** C10, as the code has it.  For a URL the configuration step accepts,
    the answer decides.  When its lowercase form is [y] or [yes] the
    step goes on to save the slug: where the outside lets it, the slug
    is written and [main] exits with status 0; where it does not, the
    error of the operating system or of the encoding leaves [main]
    uncaught and the file is as before or empty.  For any other answer
    the step raises, [main] exits with status 1, and the configuration
    file is as before. *)
Theorem confirmation_decides_the_write
    env arg w url answer rest author name :
  repo_flag arg = true ->
  stdin w = url :: answer :: rest ->
  Re.match_github_url (PyStr.strip url) = Some (author, name) ->
  (PyStr.lower answer = "y" \/ PyStr.lower answer = "yes" ->
     (can_save env (fs w) (slug_of author name) = true ->
        fst (setup_repo env [arg] w) = Ok tt /\
        fst (main env [arg] w) = Raise (SystemExit 0) /\
        slug_file (fs (snd (main env [arg] w)))
          = Some (to_linesep (crlf env)
                    ("/" +:+ author +:+ "/" +:+ name))) /\
     (can_save env (fs w) (slug_of author name) = false ->
        exists e,
          (e = FileExistsError \/ e = OSError \/ e = UnicodeEncodeError) /\
          fst (setup_repo env [arg] w) = Raise e /\
          fst (main env [arg] w) = Raise e /\
          (slug_file (fs (snd (main env [arg] w))) = slug_file (fs w) \/
           slug_file (fs (snd (main env [arg] w))) = Some EmptyString))) /\
  (~ (PyStr.lower answer = "y" \/ PyStr.lower answer = "yes") ->
     fst (setup_repo env [arg] w) = Raise (RuntimeError aborted_message) /\
     fst (main env [arg] w) = Raise (SystemExit 1) /\
     fs (snd (main env [arg] w)) = fs w).
Proof.
  intros Hf Hin Hm.
  unfold main, recursion_limit. rewrite (main_repo_flag env _ arg w Hf).
  split.
  - intros Ha%accepted_iff. split; intros Hs.
    + destruct (setup_repo_saved env arg w url answer rest author name
                  Hin Hm Ha Hs) as (w' & -> & Hfs & _).
      simpl. by rewrite Hfs.
    + destruct (setup_repo_not_saved env arg w url answer rest author name
                  Hin Hm Ha Hs) as (e & w' & -> & He & Hfile & _).
      exists e. split; [done|]. split; [done|]. unfold report.
      assert (Hr : is_RuntimeError e = false)
        by (by destruct He as [-> | [-> | ->]]).
      rewrite Hr. done.
  - intros Hn. assert (Ha : accepted answer = false).
    { destruct (accepted answer) eqn:E; [|done].
      by destruct Hn; apply accepted_iff. }
    by rewrite (setup_repo_declined env arg w url answer rest author name
                  Hin Hm Ha).
Qed.

(** The original wording of C10 fails: with a regular file where the
    configuration directory should be, the answer [y] is followed by
    [FileExistsError] from [os.makedirs], which [main] does not catch,
    and no slug is written. *)
Lemma config_confirmed_but_not_written :
  let w := sample_world_blocked
             ["https://github.com/octocat/hello-world"; "y"] in
  PyStr.lower "y" = "y" /\
  fst (main sample_env ["--repo"] w) = Raise FileExistsError /\
  fs (snd (main sample_env ["--repo"] w)) = fs w /\
  slug_file (fs (snd (main sample_env ["--repo"] w))) = None.
Proof. vm_compute. repeat split; done. Qed.

(** ** The theorems at the sample inputs *)



Lemma submit_with_existing_remote_witness :
  let w := sample_world (Some "/octocat/hello-world")
                        sample_repo_with_remote [] in
  remote_at "/home/dev/project" "trytravis" w
    = Some "https://github.com/octocat/old" /\
  unbound_or_git (fst (_submit_project_to_github sample_env sample_self w)) /\
  pushed_at "/home/dev/project"
    (snd (_submit_project_to_github sample_env sample_self w))
  = pushed_at "/home/dev/project" w.
Proof.
  intros w. split; [vm_compute; reflexivity|].
  apply (submit_with_existing_remote sample_env sample_self w "master"
           "https://github.com/octocat/old");
    vm_compute; reflexivity.
Defined.

Lemma submit_try_octocat_witness :
  fst (submit_try sample_env sample_self sample_repo) = Ok tt /\
  Git.remotes (snd (submit_try sample_env sample_self sample_repo))
    !! "trytravis" = Some "https://github.com//octocat/hello-world" /\
  Git.HEAD (snd (submit_try sample_env sample_self sample_repo))
    = Git.OnBranch "trytravis-1509730000123".
Proof.
  split; [vm_compute; reflexivity|].
  destruct (submit_try_octocat sample_env "/home/dev/project" "master"
              sample_repo (snd (submit_try sample_env sample_self sample_repo)))
    as (Hr & Hh & _); [reflexivity | vm_compute; reflexivity |].
  split; [exact Hr | exact Hh].
Defined.

Lemma config_write_then_read_witness :
  let w := sample_world None sample_repo
             ["https://github.com/octocat/hello-world"; "yes"] in
  slug_on_disk (fs w) = None /\
  slug_on_disk (fs (snd (main sample_env ["--repo"] w)))
    = Some "/octocat/hello-world" /\
  fst (_load_trytravis_github_slug (TryTravis_init "/home/dev/project")
         (snd (main sample_env ["--repo"] w)))
    = Ok sample_self.
Proof.
  intros w. split; [vm_compute; reflexivity|].
  destruct (config_write_then_read sample_env "--repo" w
              "https://github.com/octocat/hello-world" "yes" []
              "octocat" "hello-world" (TryTravis_init "/home/dev/project"))
    as (_ & Hd & _ & Hl);
    [reflexivity | reflexivity | vm_compute; reflexivity
     | reflexivity | vm_compute; reflexivity |].
  split; [exact Hd|]. rewrite (Hl eq_refl eq_refl). reflexivity.
Defined.

Lemma config_rejects_unmatched_url_witness :
  let w := sample_world (Some "/octocat/hello-world") sample_repo
             ["https://gitlab.com/x/y"] in
  fst (setup_repo sample_env ["--repo"] w)
    = Raise (RuntimeError invalid_url_message) /\
  fst (main sample_env ["--repo"] w) = Raise (SystemExit 1) /\
  fs (snd (main sample_env ["--repo"] w)) = fs w.
Proof.
  intros w.
  apply (config_rejects_unmatched_url sample_env "--repo" w
           "https://gitlab.com/x/y" []);
    [reflexivity | reflexivity | vm_compute; reflexivity].
Defined.

Lemma start_without_slug_file_witness :
  let w := sample_world None sample_repo [] in
  fst (start sample_env (TryTravis_init "/home/dev/project") w)
    = Raise (RuntimeError
        "Could not find your repository. Have you ran `trytravis --repo`?") /\
  snd (start sample_env (TryTravis_init "/home/dev/project") w) = w.
Proof.
  intros w.
  destruct (start_without_slug_file sample_env
              (TryTravis_init "/home/dev/project") w) as [E _];
    [reflexivity|].
  rewrite E. split; reflexivity.
Defined.


Lemma confirmation_decides_the_write_witness :
  let w := sample_world None sample_repo
             ["https://github.com/octocat/hello-world"; "YES"] in
  fst (setup_repo sample_env ["--repo"] w) = Ok tt /\
  fst (main sample_env ["--repo"] w) = Raise (SystemExit 0) /\
  slug_file (fs (snd (main sample_env ["--repo"] w)))
    = Some "/octocat/hello-world".
Proof.
  intros w.
  apply (proj1 (proj1 (confirmation_decides_the_write sample_env "--repo" w
                  "https://github.com/octocat/hello-world" "YES" []
                  "octocat" "hello-world" eq_refl eq_refl eq_refl)
                (or_intror eq_refl))).
  reflexivity.
Defined.

(** * Further properties of the code *)

(** ** How far a submission gets *)

Section SubmitShape.
Import Git GitFacts.
Variables (env : Env) (self : TryTravis).

Lemma progress_same_files new r r1 r2 :
  heads r2 = heads r1 -> index_dirty r2 = index_dirty r1 ->
  worktree_dirty r2 = worktree_dirty r1 ->
  progress new r r1 -> progress new r r2.
Proof.
  intros Hs Hi Hw [H1 H2 H3 | c H1 H2 H3 H4 | H1 H2 H3 H4].
  - apply Untouched; congruence.
  - apply (Branched _ _ _ c); try congruence.
    unfold has_changes in *. congruence.
  - apply Committed; congruence.
Qed.

Lemma submit_try_progress r res r1 :
  submit_try env self r = (res, r1) ->
  progress (new_branch env) r r1 /\
  (res = Ok tt -> heads r !! new_branch env = None /\
                  heads r1 !! new_branch env = Some (next_commit r)).
Proof.
  unfold submit_try, bind.
  destruct (checkout_b (new_branch env) r) as [[[]|e1] ra] eqn:E1.
  2:{ apply checkout_b_raise in E1 as ->. intros [= <- <-].
      split; [by apply Untouched|discriminate]. }
  apply checkout_b_ok in E1 as (c & Hc & Hnew & ->).
  unfold add_all. destruct (add_ok env).
  2:{ intros [= <- <-]. split; [|discriminate].
      by apply (Branched _ _ _ c). }
  unfold commit. cbn [index_dirty worktree_dirty set_dirty set_HEAD set_heads
                      HEAD heads next_commit remotes pushed].
  destruct (commit_ok env && (index_dirty r || worktree_dirty r)) eqn:Ec.
  2:{ intros [= <- <-]. split; [|discriminate].
      apply (Branched _ _ _ c); try done.
      unfold has_changes. simpl. by rewrite orb_false_r. }
  apply andb_true_iff in Ec as [_ Ech].
  set (rc := set_heads _ _).
  assert (Hrc : progress (new_branch env) r rc /\
                heads rc !! new_branch env = Some (next_commit r)).
  { subst rc. simpl. rewrite insert_insert_eq, lookup_insert_eq.
    split; [|done]. by apply Committed. }
  clearbody rc. destruct Hrc as [Hprog Hlook].
  destruct (add_remote env self rc) as [[rem|e4] rd] eqn:E4.
  2:{ apply add_remote_spec in E4 as (_&_&E4).
      destruct (slug self), (remotes rc !! "trytravis"); by destruct E4. }
  apply add_remote_spec in E4 as ((_ & Hd1 & Hd2 & Hd3) & _ & _).
  intros E5. apply push_local_spec in E5 as ((_ & He1 & He2 & He3) & _ & _).
  split.
  - apply (progress_same_files _ _ rc); [congruence..|done].
  - intros _. split; [done|congruence].
Qed.

Lemma submit_on_repo_progress r res r1 :
  submit_on_repo env self r = (res, r1) ->
  progress (new_branch env) r r1 /\
  (res = Ok tt -> heads r !! new_branch env = None /\
                  heads r1 !! new_branch env = Some (next_commit r)).
Proof.
  unfold submit_on_repo, bind, active_branch.
  destruct (HEAD r) as [b|c].
  2:{ intros [= <- <-]. split; [by apply Untouched|discriminate]. }
  unfold try_finally.
  destruct (submit_try env self r) as [rt ra] eqn:Et.
  destruct (submit_try_progress _ _ _ Et) as [Hprog Hok].
  destruct (submit_finally env b ra) as [rf rb] eqn:Ef.
  destruct (submit_finally_spec _ _ _ _ _ Ef) as (_ & _ & Hs & Hi & Hw & _).
  intros E. assert (r1 = rb) as -> by (destruct rf as [[]|]; congruence).
  split; [by apply (progress_same_files _ _ ra)|].
  intros ->. destruct rf as [[]|]; [|discriminate].
  injection E as ->. rewrite Hs. by apply Hok.
Qed.

(** *** Relations every statement of the sequence keeps *)

Section Preserves.
Variable R : Repo -> Repo -> Prop.
Hypothesis R_refl : forall r, R r r.
Hypothesis R_trans : forall r1 r2 r3, R r1 r2 -> R r2 r3 -> R r1 r3.

Lemma preserves_ret {A} (a : A) : preserves R (ret a).
Proof. intros r. apply R_refl. Qed.

Lemma preserves_raise {A} e : preserves R (@raise Repo A e).
Proof. intros r. apply R_refl. Qed.

Lemma preserves_bind {A B} (m : ST Repo A) (k : A -> ST Repo B) :
  preserves R m -> (forall a, preserves R (k a)) -> preserves R (bind m k).
Proof.
  intros Hm Hk r. unfold bind. specialize (Hm r).
  destruct (m r) as [[a|e] r']; simpl in *; [|done].
  eapply R_trans; [exact Hm|apply Hk].
Qed.

Lemma preserves_try_catch {A} (m : ST Repo A) catch h :
  preserves R m -> (forall e, preserves R (h e)) ->
  preserves R (try_catch m catch h).
Proof.
  intros Hm Hh r. unfold try_catch. specialize (Hm r).
  destruct (m r) as [[a|e] r']; simpl in *; [done|].
  destruct (catch e); [|done]. eapply R_trans; [exact Hm|apply Hh].
Qed.

Lemma preserves_try_finally {A} (m : ST Repo A) fin :
  preserves R m -> preserves R fin -> preserves R (try_finally m fin).
Proof.
  intros Hm Hf r. unfold try_finally. specialize (Hm r).
  destruct (m r) as [res r']. specialize (Hf r').
  destruct (fin r') as [[[]|e] r'']; simpl in *; by eapply R_trans.
Qed.

End Preserves.

Lemma other_remotes_kept_refl r : other_remotes_kept r r.
Proof. by intros name _. Qed.

Lemma other_remotes_kept_trans r1 r2 r3 :
  other_remotes_kept r1 r2 -> other_remotes_kept r2 r3 ->
  other_remotes_kept r1 r3.
Proof. intros H12 H23 name Hn. by rewrite (H23 name Hn), (H12 name Hn). Qed.

Lemma submit_on_repo_other_remotes :
  preserves other_remotes_kept (submit_on_repo env self).
Proof.
  assert (Hsame : forall A (m : ST Repo A),
            (forall r, remotes (snd (m r)) = remotes r) ->
            preserves other_remotes_kept m).
  { intros A m H r name _. by rewrite H. }
  pose proof other_remotes_kept_refl as Hr.
  pose proof other_remotes_kept_trans as Ht.
  assert (Hcreate : forall url,
            preserves other_remotes_kept
              (create_remote (expand env) "trytravis" url)).
  { intros url r name Hn. unfold create_remote.
    destruct (remotes r !! "trytravis"); simpl; [done|].
    by rewrite lookup_insert_ne. }
  unfold submit_on_repo, submit_try, submit_finally, add_remote, try_except.
  apply (preserves_bind _ Ht); [|intros old].
  { apply Hsame. intros r. unfold active_branch. by destruct (HEAD r). }
  apply (preserves_try_finally _ Ht).
  - apply (preserves_bind _ Ht); [|intros _].
    { apply Hsame. intros r.
      destruct (checkout_b (new_branch env) r) as [res r'] eqn:E.
      by apply checkout_b_remotes in E. }
    apply (preserves_bind _ Ht); [|intros _].
    { apply Hsame. intros r.
      destruct (add_all (add_ok env) r) as [res r'] eqn:E.
      by apply add_all_same in E as (_ & _ & E & _). }
    apply (preserves_bind _ Ht); [|intros _].
    { apply Hsame. intros r.
      destruct (commit (commit_ok env) (commit_touches_tree env) r)
        as [res r'] eqn:E.
      by apply commit_remotes in E. }
    apply (preserves_bind _ Ht); [|intros rem].
    + apply (preserves_try_catch _ Ht);
        [|intros _; by apply preserves_ret].
      apply (preserves_bind _ Ht); [|intros url].
      { unfold remote_url. destruct (slug self);
          [by apply preserves_ret|by apply preserves_raise]. }
      apply (preserves_bind _ Ht);
        [apply Hcreate|intros ?; by apply preserves_ret].
    + unfold push_local. destruct rem as [n|]; [|by apply preserves_raise].
      apply Hsame. intros r.
      destruct (push (push_result env) n r) as [res r'] eqn:E.
      by apply push_same in E as [_ E].
  - apply (preserves_bind _ Ht); [|intros _].
    + apply (preserves_try_catch _ Ht);
        [|intros _; by apply preserves_ret].
      intros r name Hn. unfold delete_remote.
      destruct (remotes r !! "trytravis"); simpl; [|done].
      by rewrite lookup_delete_ne.
    + apply Hsame. intros r.
      by destruct (checkout_frame (checkout_conflict env) old r).
Qed.

End SubmitShape.

(** ** What a submission leaves of the repository and of the world *)

(** X1.  When the active branch cannot be read, the function raises
    before any git command and the world is exactly as before:
    [NoSuchPathError] when nothing is at the path,
    [InvalidGitRepositoryError] when what is there is no repository, and
    [TypeError] when HEAD is detached. *)
Theorem submit_unreadable_branch_changes_nothing env self w :
  active_branch_at (path self) w = None ->
  snd (_submit_project_to_github env self w) = w /\
  fst (_submit_project_to_github env self w)
  = Raise (match repos w !! path self with
           | Some _ => TypeError
           | None =>
               if path_exists env (path self)
               then InvalidGitRepositoryError
               else NoSuchPathError
           end).
Proof.
  unfold active_branch_at, _submit_project_to_github.
  destruct (repos w !! path self) as [r|] eqn:Hr.
  - rewrite (with_Repo_eq _ _ _ _ _ Hr).
    unfold submit_on_repo, bind, Git.active_branch.
    destruct (Git.HEAD r); [discriminate|]. intros _. simpl.
    split; [by apply set_repos_insert_id|done].
  - rewrite (with_Repo_None _ _ _ _ Hr). done.
Qed.

(** X2.  A submission moves no branch that exists and removes none: every
    branch other than the transient one is afterwards as it was, and a
    branch that existed keeps its commit. *)
Theorem submit_keeps_branches env self w b :
  b <> new_branch env \/ is_Some (branches_at (path self) w !! b) ->
  branches_at (path self) (snd (_submit_project_to_github env self w)) !! b
  = branches_at (path self) w !! b.
Proof.
  intros Hb. unfold _submit_project_to_github, branches_at.
  destruct (repos w !! path self) as [r|] eqn:Hr.
  2:{ rewrite (with_Repo_None _ _ _ _ Hr). simpl. by rewrite ?Hr. }
  rewrite (with_Repo_eq _ _ _ _ _ Hr). simpl. rewrite lookup_insert_eq.
  destruct (submit_on_repo env self r) as [res r1] eqn:E. simpl.
  assert (Hb' : b <> new_branch env \/ is_Some (Git.heads r !! b)).
  { unfold branches_at in Hb. by rewrite Hr in Hb. }
  destruct (submit_on_repo_progress _ _ _ _ _ E) as [Hp _].
  assert (Hne : Git.heads r !! new_branch env = None -> b <> new_branch env).
  { intros Hnew. destruct Hb' as [?|[c Hc]]; [done|]. congruence. }
  destruct Hp as [H1 _ _ | c _ H2 H3 _ | H2 H3 _ _].
  - by rewrite H1.
  - rewrite H3, lookup_insert_ne; [done|]. by apply not_eq_sym, Hne.
  - rewrite H3, lookup_insert_ne; [done|]. by apply not_eq_sym, Hne.
Qed.

(** X3.  When the function returns, the transient branch, which did not
    exist before, is still there: nothing deletes it. *)
Theorem submit_leaves_transient_branch env self w :
  fst (_submit_project_to_github env self w) = Ok tt ->
  branches_at (path self) w !! new_branch env = None /\
  is_Some (branches_at (path self)
             (snd (_submit_project_to_github env self w))
           !! new_branch env).
Proof.
  unfold _submit_project_to_github, branches_at.
  destruct (repos w !! path self) as [r|] eqn:Hr.
  2:{ by rewrite (with_Repo_None _ _ _ _ Hr). }
  rewrite (with_Repo_eq _ _ _ _ _ Hr). simpl. rewrite lookup_insert_eq.
  destruct (submit_on_repo env self r) as [res r1] eqn:E. simpl.
  intros ->. destruct (submit_on_repo_progress _ _ _ _ _ E) as [_ Hok].
  destruct (Hok eq_refl) as [Hn Hs]. split; [done|]. by rewrite Hs.
Qed.

(** X5.  Remotes under any other name are not touched. *)
Theorem submit_keeps_other_remotes env self w name :
  name <> "trytravis" ->
  remote_at (path self) name (snd (_submit_project_to_github env self w))
  = remote_at (path self) name w.
Proof.
  intros Hn. unfold _submit_project_to_github, remote_at.
  destruct (repos w !! path self) as [r|] eqn:Hr.
  2:{ rewrite (with_Repo_None _ _ _ _ Hr). simpl. by rewrite ?Hr. }
  rewrite (with_Repo_eq _ _ _ _ _ Hr). simpl. rewrite lookup_insert_eq.
  by apply (submit_on_repo_other_remotes env self r).
Qed.

(** X7.  Called on an object whose slug was never loaded, the function
    cannot return and pushes nothing: the [TypeError] of the string
    concatenation is passed over like a failure of [create_remote]. *)
Theorem submit_without_slug_never_pushes env self w :
  slug self = None ->
  (forall v, fst (_submit_project_to_github env self w) <> Ok v) /\
  pushed_at (path self) (snd (_submit_project_to_github env self w))
  = pushed_at (path self) w.
Proof.
  intros Hs. apply submit_no_push. by right.
Qed.


(** ** The exceptions of a submission *)

Lemma escaping_not_RuntimeError e : escaping e -> is_RuntimeError e = false.
Proof. intros [-> | [-> | [-> | [cmd ->]]]]; done. Qed.

(** The exceptions of [_submit_project_to_github]: those of git and of
    the unbound local, and [NoSuchPathError] for a path that does not
    exist. *)
Lemma submit_raises env self w e w' :
  _submit_project_to_github env self w = (Raise e, w') ->
  escaping e \/
  (e = NoSuchPathError /\ path_exists env (path self) = false).
Proof.
  unfold _submit_project_to_github, with_Repo.
  destruct (repos w !! path self) as [r|].
  - destruct (submit_on_repo env self r) as [res r1] eqn:E.
    intros [= -> <-]. left.
    apply submit_on_repo_raises in E as [[-> _] | [-> | [cmd ->]]];
      unfold escaping; eauto 6.
  - destruct (path_exists env (path self)) eqn:Ep; intros [= <- <-];
      unfold escaping; auto.
Qed.

(** [start] ends with an error [main] reports, or with one that
    escapes. *)
Lemma start_raises env self w :
  exists e, fst (start env self w) = Raise e /\
    (is_RuntimeError e = true \/ escaping e \/
     (e = NoSuchPathError /\ path_exists env (path self) = false)).
Proof.
  destruct (slug_on_disk (fs w)) as [s|] eqn:Es.
  - rewrite (start_with_slug env self w s Es).
    destruct (_submit_project_to_github _ _ _) as [[[]|e] w'] eqn:E; simpl.
    + eauto.
    + apply submit_raises in E. eauto.
  - rewrite (start_no_slug env self w Es). simpl. eauto.
Qed.

(** From the working directory, which exists, [NoSuchPathError] is not
    among them. *)
Lemma start_raises_cwd env w :
  exists e, fst (start env (TryTravis_init (cwd env)) w) = Raise e /\
    (is_RuntimeError e = true \/ escaping e).
Proof.
  destruct (start_raises env (TryTravis_init (cwd env)) w)
    as (e & He & [Hk | [Hk | [_ Hk]]]); eauto.
  unfold path_exists in Hk. cbn [path TryTravis_init] in Hk.
  by rewrite String.eqb_refl in Hk.
Qed.

(** [start] prints nothing, reads nothing and writes no file. *)
Lemma start_frame env self w :
  fs (snd (start env self w)) = fs w /\
  stdin (snd (start env self w)) = stdin w /\
  stdout (snd (start env self w)) = stdout w.
Proof.
  destruct (slug_on_disk (fs w)) as [s|] eqn:Es.
  - rewrite (start_with_slug env self w s Es).
    unfold _submit_project_to_github, with_Repo. cbn [path].
    destruct (repos w !! path self) as [r|].
    + by destruct (submit_on_repo env _ r) as [[[]|e] r1].
    + by destruct (path_exists env (path self)).
  - by rewrite (start_no_slug env self w Es).
Qed.

(** ** Every way through [main] *)

Section MainCases.
Variables (env : Env).

Lemma main_no_args d w :
  main_depth (S d) env [] w
  = report (start env (TryTravis_init (cwd env)) w).
Proof.
  simpl main_depth. unfold main_body, try_except_else, bind, colorama_init,
    ret, sys_exit, raise, print, report. simpl.
  by destruct (start _ _ w) as [[[]|e] w'].
Qed.

Lemma main_single d arg w :
  main_depth (S d) env [arg] w
  = report
      ((if PyStr.str_in arg ["-h"; "--help"; "-H"] then print help_text
        else if PyStr.str_in arg ["-v"; "--version"; "-V"]
        then print_version env
        else if PyStr.str_in arg ["-r"; "--repo"; "-R"]
        then setup_repo env [arg]
        else ret tt) w).
Proof.
  simpl main_depth. unfold main_body, try_except_else, bind, colorama_init,
    ret, sys_exit, raise, report.
  cbn -[PyStr.str_in setup_repo print_version help_text].
  destruct (_ w) as [[[]|e] w']; try done.
  all: try by destruct (is_RuntimeError e).
Qed.

Lemma main_many d argv w :
  Nat.ltb 1 (length argv) && negb (token_input_argv argv) = true ->
  main_depth (S (S d)) env argv w
  = (Raise (SystemExit 0), set_stdout (stdout w ++ [help_text]) w).
Proof.
  intros H.
  change (main_body (main_depth (S d) env) env argv w = 
          (Raise (SystemExit 0), set_stdout (stdout w ++ [help_text]) w)).
  unfold main_body, try_except_else, bind, colorama_init, ret.
  cbv beta iota. fold (token_input_argv argv). rewrite H.
  by rewrite main_help.
Qed.

Lemma token_flag_cases arg :
  PyStr.str_in arg ["--token"; "-t"; "-T"] = true ->
  arg = "--token" \/ arg = "-t" \/ arg = "-T".
Proof.
  unfold PyStr.str_in. cbn [existsb].
  rewrite orb_false_r, !orb_true_iff, !String.eqb_eq. tauto.
Qed.

Lemma main_token d argv w :
  token_input_argv argv = true ->
  main_depth (S d) env argv w = (Raise (SystemExit 0), w).
Proof.
  unfold token_input_argv. intros [Hl Ht]%andb_true_iff.
  apply Nat.eqb_eq in Hl.
  destruct argv as [|a [|b [|? ?]]]; try discriminate. simpl in Ht.
  apply token_flag_cases in Ht as [-> | [-> | ->]]; reflexivity.
Qed.

End MainCases.

(** ** Every way through the configuration step *)

Section SetupCases.
Variables (env : Env) (arg : string).

Ltac run_setup :=
  cbn -[PyStr.str_in PyStr.lower PyStr.strip Re.match_github_url
        confirm_prompt slug_of to_linesep].

Lemma setup_repo_no_input w :
  stdin w = [] ->
  setup_repo env [arg] w
  = (Raise EOFError, set_stdout (stdout w ++ [url_prompt]) w).
Proof.
  intros Hin. unfold setup_repo, bind, user_input. run_setup.
  by rewrite Hin.
Qed.

Lemma setup_repo_no_answer w url author name :
  stdin w = [url] ->
  Re.match_github_url (PyStr.strip url) = Some (author, name) ->
  fst (setup_repo env [arg] w) = Raise EOFError /\
  fs (snd (setup_repo env [arg] w)) = fs w /\
  repos (snd (setup_repo env [arg] w)) = repos w.
Proof.
  intros Hin Hm. unfold setup_repo, bind, user_input. run_setup.
  rewrite Hin, Hm. run_setup. done.
Qed.

(** The ways the step can end, with what each leaves. *)
Lemma setup_repo_cases w :
  repos (snd (setup_repo env [arg] w)) = repos w /\
  ((fst (setup_repo env [arg] w) = Raise EOFError /\
    fs (snd (setup_repo env [arg] w)) = fs w) \/
   (exists msg, fst (setup_repo env [arg] w) = Raise (RuntimeError msg) /\
    fs (snd (setup_repo env [arg] w)) = fs w) \/
   (exists url answer rest author name,
      stdin w = url :: answer :: rest /\
      Re.match_github_url (PyStr.strip url) = Some (author, name) /\
      accepted answer = true /\
      ((fst (setup_repo env [arg] w) = Ok tt /\
        fs (snd (setup_repo env [arg] w))
          = mkFS Directory
              (Some (to_linesep (crlf env) (slug_of author name)))) \/
       (exists e,
          fst (setup_repo env [arg] w) = Raise e /\
          (e = FileExistsError \/ e = OSError \/ e = UnicodeEncodeError) /\
          (slug_file (fs (snd (setup_repo env [arg] w))) = slug_file (fs w) \/
           slug_file (fs (snd (setup_repo env [arg] w)))
             = Some EmptyString))))).
Proof.
  destruct (stdin w) as [|url [|answer rest]] eqn:Hin.
  - rewrite (setup_repo_no_input w Hin). simpl. auto.
  - destruct (Re.match_github_url (PyStr.strip url)) as [[a n]|] eqn:Hm.
    + destruct (setup_repo_no_answer w url a n Hin Hm) as (H1 & H2 & H3).
      split; [done|]. by left.
    + rewrite (setup_repo_invalid env arg w url [] Hin Hm). simpl.
      split; [done|]. right; left. by eexists.
  - destruct (Re.match_github_url (PyStr.strip url)) as [[a n]|] eqn:Hm.
    + destruct (accepted answer) eqn:Ha.
      * destruct (can_save env (fs w) (slug_of a n)) eqn:Hs.
        -- destruct (setup_repo_saved env arg w url answer rest a n
                       Hin Hm Ha Hs) as (w' & -> & Hfs & Hr & _).
           simpl. split; [done|]. right. right.
           exists url, answer, rest, a, n. auto 10.
        -- destruct (setup_repo_not_saved env arg w url answer rest a n
                       Hin Hm Ha Hs)
             as (e & w' & -> & He & Hfile & _ & Hr & _).
           simpl. split; [done|]. right. right.
           exists url, answer, rest, a, n. eauto 10.
      * rewrite (setup_repo_declined env arg w url answer rest a n
                   Hin Hm Ha).
        simpl. split; [done|]. right; left. by eexists.
    + rewrite (setup_repo_invalid env arg w url _ Hin Hm). simpl.
      split; [done|]. right; left. by eexists.
Qed.

End SetupCases.

(** ** The command line as a whole *)

Lemma main_is_depth env argv w d :
  main_depth (S (S d)) env argv w = main env argv w.
Proof.
  unfold main, recursion_limit.
  rewrite (main_depth_stable d), (main_depth_stable 998). done.
Qed.

(** The version line is printed, or [platform.dist] is missing. *)
Lemma print_version_cases env w :
  (exists w', print_version env w = (Ok tt, w') /\
     fs w' = fs w /\ repos w' = repos w) \/
  print_version env w = (Raise AttributeError, w).
Proof.
  unfold print_version, bind, ret, raise.
  destruct (String.eqb (platform_system env) "Linux").
  - destruct (platform_dist env) as [[n v]|]; [left|by right].
    unfold print. eauto.
  - left. unfold print. eauto.
Qed.

Lemma report_frame out :
  fs (snd (report out)) = fs (snd out) /\
  repos (snd (report out)) = repos (snd out).
Proof.
  destruct out as [[[]|e] w']; simpl; [done|].
  by destruct (is_RuntimeError e).
Qed.

(** What [main] makes of a body that does not call [sys.exit] itself. *)
Lemma report_outcome out :
  (forall e, fst out = Raise e -> forall c, e <> SystemExit c) ->
  exists e, fst (report out) = Raise e /\
    (e = SystemExit 0 \/ e = SystemExit 1 \/ forall c, e <> SystemExit c).
Proof.
  destruct out as [[[]|e] w']; simpl; intros H; [eauto|].
  destruct (is_RuntimeError e); simpl; [eauto|].
  exists e. split; [done|]. right. right. by apply H.
Qed.

(** Every run of [main] ends by raising: with status 0 or 1, or with an
    exception that is no exit. *)
Lemma main_outcome env argv w :
  exists e, fst (main env argv w) = Raise e /\
    (e = SystemExit 0 \/ e = SystemExit 1 \/ forall c, e <> SystemExit c).
Proof.
  rewrite <- (main_is_depth env argv w 0).
  destruct argv as [|a [|b rest]].
  - rewrite main_no_args. apply report_outcome. intros e He c ->.
    destruct (start_raises_cwd env w) as (e' & He' & Hk).
    rewrite He in He'. injection He' as <-.
    destruct Hk as [Hk | [Hk | [Hk | [Hk | [cmd Hk]]]]]; discriminate.
  - rewrite main_single. apply report_outcome. intros e He c ->.
    destruct (PyStr.str_in a ["-h"; "--help"; "-H"]); [discriminate|].
    destruct (PyStr.str_in a ["-v"; "--version"; "-V"]).
    { destruct (print_version_cases env w) as [(w' & E & _) | E];
        rewrite E in He; discriminate. }
    destruct (PyStr.str_in a ["-r"; "--repo"; "-R"]); [|discriminate].
    destruct (setup_repo_cases env a w)
      as (_ & [[He' _] | [(msg & He' & _) |
               (?&?&?&?&?&_&_&_& [[He' _] | (e' & He' & Hk & _)])]]);
      rewrite He in He'; try discriminate.
    injection He' as <-. destruct Hk as [Hk | [Hk | Hk]]; discriminate.
  - destruct (token_input_argv (a :: b :: rest)) eqn:Ht.
    + rewrite (main_token env 1 _ w Ht). simpl. eauto.
    + rewrite (main_many env 0 _ w); [simpl; eauto|].
      by rewrite Ht.
Qed.

(** X9.  [main] never returns: every run ends by raising, within two
    nested calls whatever the recursion limit from two on, and an exit
    status that comes out of it is 0 or 1. *)
Theorem main_never_returns env argv w :
  (forall d, main_depth (S (S d)) env argv w = main env argv w) /\
  (forall v, fst (main env argv w) <> Ok v) /\
  (forall code, fst (main env argv w) = Raise (SystemExit code) ->
     code = 0%Z \/ code = 1%Z).
Proof.
  split; [intros d; apply main_is_depth|].
  destruct (main_outcome env argv w) as (e & He & Hk). rewrite He.
  split; [discriminate|].
  intros code [= ->].
  destruct Hk as [[= ->] | [[= ->] | Hk]]; auto. by destruct (Hk code).
Qed.

(** X10.  Run without arguments, [main] never exits with status 0: it
    exits with status 1 after printing one error line, or an error of git
    or of the unbound local escapes with nothing printed.  Nothing is
    read and the configuration file is not written. *)
Theorem main_submit_never_succeeds env w :
  let out := main env [] w in
  fst out <> Raise (SystemExit 0) /\
  fs (snd out) = fs w /\ stdin (snd out) = stdin w /\
  ((fst out = Raise (SystemExit 1) /\
    exists e, stdout (snd out) = (stdout w ++ [error_line e])%list) \/
   (exists e, fst out = Raise e /\ escaping e /\
      stdout (snd out) = stdout w)).
Proof.
  rewrite <- (main_is_depth env [] w 0), main_no_args.
  destruct (start_raises_cwd env w) as (e & He & Hk).
  destruct (start_frame env (TryTravis_init (cwd env)) w) as (Hf & Hi & Ho).
  destruct (start env _ w) as [res w']. simpl in *. subst res.
  unfold report. destruct Hk as [Hk|Hk].
  - rewrite Hk. simpl. rewrite Ho. split; [discriminate|].
    split; [done|]. split; [done|]. left. eauto.
  - rewrite (escaping_not_RuntimeError e Hk). simpl.
    split; [by destruct Hk as [-> | [-> | [-> | [cmd ->]]]]|].
    split; [done|]. split; [done|]. right. eauto.
Qed.

(** X11.  With two or more arguments that are not a token flag and its
    value, whatever they are, [main] prints the usage text and exits
    with status 0, and does nothing else. *)
Theorem main_many_arguments_print_help env argv w :
  (2 <= length argv)%nat ->
  token_input_argv argv = false ->
  main env argv w
  = (Raise (SystemExit 0), set_stdout (stdout w ++ [help_text]) w).
Proof.
  intros Hl Ht. rewrite <- (main_is_depth env argv w 0).
  apply main_many. rewrite Ht.
  apply andb_true_iff. split; [|done]. apply Nat.ltb_lt. lia.
Qed.

(** X12.  A token flag with a value is accepted and ignored: exit status
    0, nothing printed, nothing changed. *)
Theorem main_token_pair_does_nothing env argv w :
  token_input_argv argv = true ->
  main env argv w = (Raise (SystemExit 0), w).
Proof.
  intros Ht. rewrite <- (main_is_depth env argv w 0).
  by apply main_token.
Qed.

(** X13.  A single argument that is none of the nine flags is accepted
    and ignored: exit status 0, nothing printed, nothing changed. *)
Theorem main_unknown_argument_exits_silently env arg w :
  known_flag arg = false ->
  main env [arg] w = (Raise (SystemExit 0), w).
Proof.
  unfold known_flag. intros H.
  apply orb_false_iff in H as [H Hr]. apply orb_false_iff in H as [Hh Hv].
  rewrite <- (main_is_depth env [arg] w 0), main_single.
  by rewrite Hh, Hv, Hr.
Qed.

(** X14.  Only a run without arguments touches a repository, and only the
    configuration step touches the configuration file. *)
Theorem main_touches_what_it_is_asked_for env argv w :
  (argv <> [] -> repos (snd (main env argv w)) = repos w) /\
  ((forall arg, argv = [arg] -> repo_flag arg = false) ->
   fs (snd (main env argv w)) = fs w).
Proof.
  rewrite <- (main_is_depth env argv w 0).
  destruct argv as [|a [|b rest]].
  - split; [done|]. intros _. rewrite main_no_args.
    destruct (report_frame (start env (TryTravis_init (cwd env)) w))
      as [-> _].
    by destruct (start_frame env (TryTravis_init (cwd env)) w) as (-> & _).
  - rewrite main_single.
    match goal with |- context [report ?o] =>
      destruct (report_frame o) as [-> ->] end.
    destruct (PyStr.str_in a ["-h"; "--help"; "-H"]); [done|].
    destruct (PyStr.str_in a ["-v"; "--version"; "-V"]).
    { destruct (print_version_cases env w) as [(w' & E & Hfs & Hrs) | E];
        rewrite E; simpl; [by rewrite Hfs, Hrs|done]. }
    destruct (PyStr.str_in a ["-r"; "--repo"; "-R"]) eqn:Hr; [|done].
    split.
    + intros _. by destruct (setup_repo_cases env a w) as [-> _].
    + intros H. specialize (H a eq_refl). unfold repo_flag in H. congruence.
  - destruct (token_input_argv (a :: b :: rest)) eqn:Ht.
    + by rewrite (main_token env 1 _ w Ht).
    + rewrite (main_many env 0 _ w); [done|]. by rewrite Ht.
Qed.

(** X15.  When the input ends at a prompt of the configuration step, at
    the URL or at the confirmation of an accepted URL, [EOFError] goes
    through [main] unreported and the configuration file is as before. *)
Theorem config_end_of_input env arg w :
  repo_flag arg = true ->
  stdin w = [] \/
  (exists url, stdin w = [url] /\
     is_Some (Re.match_github_url (PyStr.strip url))) ->
  fst (main env [arg] w) = Raise EOFError /\
  fs (snd (main env [arg] w)) = fs w.
Proof.
  intros Hf Hin. unfold main, recursion_limit.
  rewrite (main_repo_flag env _ arg w Hf).
  destruct Hin as [Hin | (url & Hin & [[a n] Hm])].
  - by rewrite (setup_repo_no_input env arg w Hin).
  - destruct (setup_repo_no_answer env arg w url a n Hin Hm)
      as (He & Hfs & _).
    destruct (setup_repo env [arg] w) as [res w']. simpl in *. by subst res.
Qed.

(** X16.  Whatever is typed and whatever the outside does, the
    configuration step leaves the configuration store in one of three
    states: as it was; after an error of the operating system or of the
    encoding that [main] lets through, with the file as it was or
    emptied by the opening for writing; or, with exit status 0, holding
    [/owner/name] in a directory that exists, owner and name non-empty
    and free of slashes. *)
Theorem config_writes_well_formed_slug env arg w :
  repo_flag arg = true ->
  fs (snd (main env [arg] w)) = fs w \/
  ((exists e, fst (main env [arg] w) = Raise e /\
      (e = FileExistsError \/ e = OSError \/ e = UnicodeEncodeError)) /\
   (slug_file (fs (snd (main env [arg] w))) = slug_file (fs w) \/
    slug_file (fs (snd (main env [arg] w))) = Some EmptyString)) \/
  exists owner name,
    fst (main env [arg] w) = Raise (SystemExit 0) /\
    fs (snd (main env [arg] w))
      = mkFS Directory
          (Some (to_linesep (crlf env) ("/" +:+ owner +:+ "/" +:+ name))) /\
    owner <> EmptyString /\ name <> EmptyString /\
    Regex.no_slash owner = true /\ Regex.no_slash name = true.
Proof.
  intros Hf. unfold main, recursion_limit.
  rewrite (main_repo_flag env _ arg w Hf).
  destruct (setup_repo_cases env arg w)
    as (_ & [[He Hfs] | [(msg & He & Hfs) |
             (url & ans & rest & a & n & _ & Hm & _ &
              [[He Hfs] | (e & He & Hk & Hfile)])]]).
  all: destruct (setup_repo env [arg] w) as [res w']; simpl in *; subst res.
  - by left.
  - by left.
  - right. right. apply match_github_url_sound in Hm
      as (_ & _ & _ & _ & _ & Ha & Hn & Hsa & Hsn).
    exists a, n. simpl. by rewrite Hfs.
  - right. left.
    assert (Hr : is_RuntimeError e = false)
      by (by destruct Hk as [-> | [-> | ->]]).
    rewrite Hr. simpl. eauto.
Qed.

(** X17.  The pattern accepts a text exactly when it is [https://], an
    optional [www.], [github], any one character but a newline, [com/],
    an owner, [/] and a name, owner and name non-empty and free of
    slashes; the groups are the owner and the name. *)
Theorem github_pattern_accepts_exactly url owner name :
  Re.match_github_url url = Some (owner, name) <->
  exists www dot,
    url = "https://" +:+ www +:+ "github"
          +:+ String dot ("com/" +:+ owner +:+ String "/" name) /\
    (www = EmptyString \/ www = "www.") /\ dot <> "010"%char /\
    owner <> EmptyString /\ name <> EmptyString /\
    Regex.no_slash owner = true /\ Regex.no_slash name = true.
Proof.
  split.
  - apply match_github_url_sound.
  - intros (www & dot & -> & Hw & Hd & Ho & Hn & Hso & Hsn).
    by apply match_github_url_complete.
Qed.

(** *** Text that is stored and read back as it is *)







(** ** The configuration directory *)

Lemma for_first_dir_split isdir c cands cur :
  exists before after,
    c :: cands = (before ++ [for_first_dir isdir (c :: cands) cur] ++ after)%list /\
    Forall (fun d => isdir d = false) before /\
    (isdir (for_first_dir isdir (c :: cands) cur) = true \/ after = []).
Proof.
  revert c cur. induction cands as [|c' cands IH]; intros c cur; simpl.
  - destruct (isdir c) eqn:E; exists [], []; auto.
  - destruct (isdir c) eqn:E.
    + exists [], (c' :: cands). rewrite E. auto.
    + destruct (IH c' c) as (before & after & Heq & Hb & Ha).
      exists (c :: before), after. simpl in *. rewrite <- Heq.
      split; [done|]. split; [by constructor|done].
Qed.

(** X19.  When [expanduser] gives no usable directory and the win32
    modules cannot be imported, the home directory is the first of
    [$HOME], [/home/<user>] and [C:\Users\<user>] that is a directory, and
    the last of them when none is. *)
Theorem home_dir_fallback h :
  expanduser_home h = "~" \/ isdir h (expanduser_home h) = false ->
  win32_importable h = false ->
  exists before after,
    home_candidates h = (before ++ [_home_dir h] ++ after)%list /\
    Forall (fun d => isdir h d = false) before /\
    (isdir h (_home_dir h) = true \/ after = []).
Proof.
  intros Hu Hw. unfold _home_dir. rewrite Hw.
  assert (String.eqb (expanduser_home h) "~"
          || negb (isdir h (expanduser_home h)) = true) as ->.
  { destruct Hu as [-> | ->]; [done|]. simpl. by rewrite orb_true_r. }
  apply for_first_dir_split.
Qed.

Lemma string_app_assoc (a b c : string) : (a +:+ b) +:+ c = a +:+ (b +:+ c).
Proof.
  induction a as [|x a IH]; [done|].
  change (String x ((a +:+ b) +:+ c) = String x (a +:+ (b +:+ c))).
  by rewrite IH.
Qed.

(** X20.  Off Windows the configuration directory is [.config/trytravis]
    under the home directory chosen, joined with one slash unless the
    home directory is empty or already ends with one. *)
Theorem config_dir_under_home h :
  String.eqb (host_system h) "Windows" = false ->
  config_dir h
  = _home_dir h
    +:+ (if OsPath.is_empty (_home_dir h)
            || OsPath.ends_with_slash (_home_dir h)
         then EmptyString else "/")
    +:+ ".config/trytravis".
Proof.
  intros Hs. unfold config_dir. rewrite Hs.
  unfold OsPath.join. cbn [fold_left].
  generalize (_home_dir h). intros home.
  assert (Hstep1 : OsPath.join_step home ".config"
          = home +:+ (if OsPath.is_empty home || OsPath.ends_with_slash home
                      then EmptyString else "/") +:+ ".config").
  { unfold OsPath.join_step. cbn [OsPath.starts_with_slash].
    by destruct (OsPath.is_empty home || OsPath.ends_with_slash home). }
  rewrite Hstep1.
  set (sep := if OsPath.is_empty home || OsPath.ends_with_slash home
              then EmptyString else "/").
  assert (Hne : OsPath.is_empty (home +:+ sep +:+ ".config") = false).
  { subst sep. by destruct home. }
  assert (Hend : OsPath.ends_with_slash (home +:+ sep +:+ ".config") = false).
  { rewrite <- string_app_assoc. generalize (home +:+ sep). clear.
    intros s. induction s as [|c s IH]; [done|].
    change (String c s +:+ ".config") with (String c (s +:+ ".config")).
    simpl. destruct (s +:+ ".config") eqn:E; [|done].
    by destruct s. }
  unfold OsPath.join_step. cbn [OsPath.starts_with_slash]. simpl Ascii.eqb.
  cbv iota. rewrite Hne, Hend. cbn [orb].
  by rewrite !string_app_assoc.
Qed.

(** ** The further properties at the sample inputs *)

Lemma submit_unreadable_branch_changes_nothing_witness :
  let w := sample_world (Some "/octocat/hello-world")
                        sample_repo_detached [] in
  active_branch_at "/home/dev/project" w = None /\
  snd (_submit_project_to_github sample_env sample_self w) = w /\
  fst (_submit_project_to_github sample_env sample_self w) = Raise TypeError.
Proof.
  intros w. split; [vm_compute; reflexivity|].
  destruct (submit_unreadable_branch_changes_nothing sample_env sample_self w)
    as [Hw Hf]; [vm_compute; reflexivity|].
  split; [exact Hw|]. rewrite Hf. vm_compute; reflexivity.
Defined.

Lemma submit_keeps_branches_witness :
  let w := sample_world (Some "/octocat/hello-world") sample_repo [] in
  branches_at "/home/dev/project"
    (snd (_submit_project_to_github sample_env sample_self w)) !! "master"
  = Some 0%nat.
Proof.
  intros w.
  transitivity (branches_at "/home/dev/project" w !! "master");
    [|vm_compute; reflexivity].
  apply (submit_keeps_branches sample_env sample_self w "master").
  left. vm_compute. discriminate.
Defined.

Lemma submit_leaves_transient_branch_witness :
  let w := sample_world (Some "/octocat/hello-world") sample_repo [] in
  branches_at "/home/dev/project" w !! "trytravis-1509730000123" = None /\
  is_Some (branches_at "/home/dev/project"
             (snd (_submit_project_to_github sample_env sample_self w))
           !! "trytravis-1509730000123").
Proof.
  intros w.
  apply (submit_leaves_transient_branch sample_env sample_self w).
  vm_compute; reflexivity.
Defined.

Lemma submit_keeps_other_remotes_witness :
  let w := sample_world (Some "/octocat/hello-world")
                        sample_repo_with_origin [] in
  remote_at "/home/dev/project" "origin"
    (snd (_submit_project_to_github sample_env sample_self w))
  = Some "https://github.com/dev/project".
Proof.
  intros w.
  transitivity (remote_at "/home/dev/project" "origin" w);
    [|vm_compute; reflexivity].
  apply (submit_keeps_other_remotes sample_env sample_self w "origin").
  vm_compute. discriminate.
Defined.

Lemma submit_without_slug_never_pushes_witness :
  let w := sample_world None sample_repo [] in
  pushed_at "/home/dev/project"
    (snd (_submit_project_to_github sample_env
            (TryTravis_init "/home/dev/project") w)) = [].
Proof.
  intros w.
  destruct (submit_without_slug_never_pushes sample_env
              (TryTravis_init "/home/dev/project") w) as [_ Hp];
    [reflexivity|].
  exact (eq_trans Hp eq_refl).
Defined.


Lemma main_never_returns_witness :
  let w := sample_world (Some "/octocat/hello-world") sample_repo [] in
  fst (main sample_env [] w) = Raise (SystemExit 1) /\
  (1 = 0 \/ 1 = 1)%Z.
Proof.
  intros w. split; [vm_compute; reflexivity|].
  destruct (main_never_returns sample_env [] w) as (_ & _ & Hc).
  apply (Hc 1%Z). vm_compute; reflexivity.
Defined.

Lemma main_many_arguments_print_help_witness :
  let w := sample_world None sample_repo [] in
  main sample_env ["-v"; "-h"; "--repo"] w
  = (Raise (SystemExit 0), set_stdout [help_text] w).
Proof.
  intros w.
  apply (main_many_arguments_print_help sample_env ["-v"; "-h"; "--repo"] w);
    [simpl; lia|reflexivity].
Defined.

Lemma main_token_pair_does_nothing_witness :
  let w := sample_world None sample_repo [] in
  main sample_env ["--token"; "0123abcd"] w = (Raise (SystemExit 0), w).
Proof.
  intros w.
  apply (main_token_pair_does_nothing sample_env ["--token"; "0123abcd"] w).
  reflexivity.
Defined.

Lemma main_unknown_argument_exits_silently_witness :
  let w := sample_world None sample_repo [] in
  main sample_env ["--watch"] w = (Raise (SystemExit 0), w).
Proof.
  intros w.
  apply (main_unknown_argument_exits_silently sample_env "--watch" w).
  reflexivity.
Defined.

Lemma main_touches_what_it_is_asked_for_witness :
  let w := sample_world None sample_repo [] in
  repos (snd (main sample_env ["--version"] w)) = repos w /\
  fs (snd (main sample_env ["--version"] w)) = fs w.
Proof.
  intros w.
  destruct (main_touches_what_it_is_asked_for sample_env ["--version"] w)
    as [Hr Hf].
  split; [apply Hr; discriminate|].
  apply Hf. intros arg [= <-]. reflexivity.
Defined.

Lemma config_end_of_input_witness :
  let w := sample_world (Some "/octocat/hello-world") sample_repo
             ["https://github.com/octocat/other"] in
  fst (main sample_env ["--repo"] w) = Raise EOFError /\
  fs (snd (main sample_env ["--repo"] w)) = fs w.
Proof.
  intros w.
  apply (config_end_of_input sample_env "--repo" w); [reflexivity|].
  right. exists "https://github.com/octocat/other".
  split; [reflexivity|]. vm_compute. eexists. reflexivity.
Defined.

Lemma config_writes_well_formed_slug_witness :
  let w := sample_world None sample_repo
             ["https://github.com/octocat/hello-world"; "y"] in
  repo_flag "--repo" = true /\
  (fs (snd (main sample_env ["--repo"] w)) = fs w \/
   ((exists e, fst (main sample_env ["--repo"] w) = Raise e /\
       (e = FileExistsError \/ e = OSError \/ e = UnicodeEncodeError)) /\
    (slug_file (fs (snd (main sample_env ["--repo"] w))) = slug_file (fs w) \/
     slug_file (fs (snd (main sample_env ["--repo"] w)))
       = Some EmptyString)) \/
   exists owner name,
     fst (main sample_env ["--repo"] w) = Raise (SystemExit 0) /\
     fs (snd (main sample_env ["--repo"] w))
       = mkFS Directory
           (Some (to_linesep (crlf sample_env)
                    ("/" +:+ owner +:+ "/" +:+ name))) /\
     owner <> EmptyString /\ name <> EmptyString /\
     Regex.no_slash owner = true /\ Regex.no_slash name = true).
Proof.
  intros w. split; [reflexivity|].
  apply (config_writes_well_formed_slug sample_env "--repo" w). reflexivity.
Defined.


Lemma home_dir_fallback_witness :
  _home_dir sample_host = "/home/dev" /\
  exists before after,
    home_candidates sample_host
      = (before ++ [_home_dir sample_host] ++ after)%list /\
    Forall (fun d => isdir sample_host d = false) before /\
    (isdir sample_host (_home_dir sample_host) = true \/ after = []).
Proof.
  split; [vm_compute; reflexivity|].
  apply (home_dir_fallback sample_host); [left|]; reflexivity.
Defined.

Lemma config_dir_under_home_witness :
  config_dir sample_host = "/home/dev/.config/trytravis".
Proof.
  rewrite (config_dir_under_home sample_host); [|reflexivity].
  vm_compute; reflexivity.
Defined.
